(** * remote.py: the MSP sender of msposd, embedded in Rocq

    The development follows [remote.py] top to bottom:
    - Python values the script relies on (ints, [bytes], dicts, slices);
    - a small monad for the script's effects: mutable state, raised
      exceptions and datagrams handed to the UDP socket;
    - [GPIOReader], [send_msp_message], [send_initial_setup] and [main];
    - the properties of the frame codec and of the control loop. *)

From Stdlib Require Import ZArith List String Ascii Bool Lia.
From Stdlib.Strings Require Import Byte.
Import ListNotations.

Local Open Scope Z_scope.
Local Open Scope list_scope.

(** ** Python values *)

(** The exceptions the script can meet. *)
Inductive exn : Type :=
| KeyError        (* d[k] with k missing *)
| ValueError      (* bytes([n]) with n outside range(256); gpiofind failure *)
| StructError     (* struct.pack of a value outside 0..65535 *)
| RuntimeError.   (* raised by _setup_gpio *)

Inductive result (A : Type) : Type :=
| Ok (a : A)
| Raise (e : exn).
Arguments Ok {A} a.
Arguments Raise {A} e.

(** A Python [bytes] object is a [list byte]; a Python int is a [Z]. *)
Definition int_of_byte (b : byte) : Z := Z.of_N (Byte.to_N b).

Definition byte_of_int (n : Z) : option byte :=
  if 0 <=? n then Byte.of_N (Z.to_N n) else None.

(** [bytes(l)] for a list of ints [l]: ValueError unless every element is
    in range(256). *)
Fixpoint bytes (l : list Z) : result (list byte) :=
  match l with
  | [] => Ok []
  | n :: l' =>
      match byte_of_int n with
      | None => Raise ValueError
      | Some b =>
          match bytes l' with
          | Ok bs => Ok (b :: bs)
          | Raise e => Raise e
          end
      end
  end.

(** [s.encode('utf-8')]: a Rocq [string] holds the text as its UTF-8 bytes. *)
Definition encode_utf8 (s : string) : list byte := list_byte_of_string s.

(** [struct.pack("<nH", *values)] with [n = len(values)]: every value as an
    unsigned 16-bit integer, low byte first; struct.error outside 0..65535. *)
Definition pack_H (v : Z) : result (list byte) :=
  if (0 <=? v) && (v <=? 65535) then
    match byte_of_int (Z.land v 255), byte_of_int (Z.shiftr v 8) with
    | Some lo, Some hi => Ok [lo; hi]
    | _, _ => Raise StructError
    end
  else Raise StructError.

Fixpoint struct_pack_le_H (vs : list Z) : result (list byte) :=
  match vs with
  | [] => Ok []
  | v :: vs' =>
      match pack_H v with
      | Raise e => Raise e
      | Ok b =>
          match struct_pack_le_H vs' with
          | Ok bs => Ok (b ++ bs)
          | Raise e => Raise e
          end
      end
  end.

(** The reading a receiver makes of such a payload: consecutive pairs of
    bytes as little-endian unsigned 16-bit integers. *)
Fixpoint unpack_le_H (bs : list byte) : list Z :=
  match bs with
  | lo :: hi :: rest => (int_of_byte lo + 256 * int_of_byte hi) :: unpack_le_H rest
  | _ => []
  end.

(** Dicts keep insertion order; an association list with unique keys. *)
Section Dict.
Context {K V : Type} (eqb : K -> K -> bool).

Definition dict := list (K * V).

Fixpoint dict_get (k : K) (d : dict) : option V :=
  match d with
  | [] => None
  | (k', v) :: d' => if eqb k k' then Some v else dict_get k d'
  end.

(** [d[k] = v] *)
Fixpoint dict_set (k : K) (v : V) (d : dict) : dict :=
  match d with
  | [] => [(k, v)]
  | (k', v') :: d' =>
      if eqb k k' then (k', v) :: d' else (k', v') :: dict_set k v d'
  end.

(** [k in d] *)
Definition dict_mem (k : K) (d : dict) : bool :=
  match dict_get k d with Some _ => true | None => false end.

Definition dict_keys (d : dict) : list K := map fst d.
Definition dict_values (d : dict) : list V := map snd d.
End Dict.
Arguments dict : clear implicits.

(** Slice assignment on a list: [l[:4] = new] and [l[4:] = new]. *)
Definition assign_upto (n : nat) (new l : list Z) : list Z := new ++ skipn n l.
Definition assign_from (n : nat) (new l : list Z) : list Z := firstn n l ++ new.

(** ** The frame codec: the pure part of [send_msp_message] (lines 67-74) *)

Definition msp_message (direction : string) (cmd : Z) (values : list byte)
  : result (list byte) :=
  let payload := values in
  let header := encode_utf8 ("$M" ++ direction)%string in
  let size := Z.of_nat (List.length payload) in
  let checksum :=
    fold_left (fun c b => Z.lxor c (int_of_byte b)) payload (Z.lxor size cmd) in
  match bytes [size] with
  | Raise e => Raise e
  | Ok bsize =>
      match bytes [cmd] with
      | Raise e => Raise e
      | Ok bcmd =>
          match bytes [checksum] with
          | Raise e => Raise e
          | Ok bsum => Ok (header ++ bsize ++ bcmd ++ payload ++ bsum)
          end
      end
  end.

(** The XOR of the payload bytes alone, 0 for the empty payload. *)
Definition payload_xor (payload : list byte) : Z :=
  fold_right (fun b acc => Z.lxor (int_of_byte b) acc) 0 payload.

(** ** The outside world *)

(** What the platform answers during start-up: [gpiofind PIN_n] gives a chip
    name and a line offset, or fails. Opening the chip and requesting the
    line are taken to succeed. *)
Record Platform : Type := { gpiofind : Z -> option (string * Z) }.

(** What one turn of [while True] reads: the level of the line of every pin
    ([line.get_value()]) and the value of [non_blocking_input()], which is
    the stripped line typed on stdin, or the empty string. *)
Record Tick : Type := { levels : Z -> Z; user_input : string }.

(** A [gpiod.Chip] object. *)
Record Chip : Type := { chip_name : string; chip_open : bool }.

(** ** The mutable state of the script

    [chips] holds the [gpiod.Chip] objects in creation order (a chip is
    referred to by its index); [pin_mappings] is the field of the one
    [GPIOReader]; the other fields are the local variables of [main]. *)
Record State : Type := mkState {
  chips : list Chip;
  pin_mappings : dict Z (nat * Z);
  values : list Z;
  initialized : bool;
  last_gpio_states : dict Z Z;
  first_input : bool
}.

Definition set_chips (x : list Chip) (s : State) : State :=
  mkState x (pin_mappings s) (values s) (initialized s) (last_gpio_states s) (first_input s).
Definition set_pin_mappings (x : dict Z (nat * Z)) (s : State) : State :=
  mkState (chips s) x (values s) (initialized s) (last_gpio_states s) (first_input s).
Definition set_values (x : list Z) (s : State) : State :=
  mkState (chips s) (pin_mappings s) x (initialized s) (last_gpio_states s) (first_input s).
Definition set_initialized (x : bool) (s : State) : State :=
  mkState (chips s) (pin_mappings s) (values s) x (last_gpio_states s) (first_input s).
Definition set_last_gpio_states (x : dict Z Z) (s : State) : State :=
  mkState (chips s) (pin_mappings s) (values s) (initialized s) x (first_input s).
Definition set_first_input (x : bool) (s : State) : State :=
  mkState (chips s) (pin_mappings s) (values s) (initialized s) (last_gpio_states s) x.

(** ** The effect monad

    A computation reads and writes the [State], returns or raises, and hands
    datagrams to the socket; the datagrams are listed in sending order. The
    state reached when an exception is raised is kept: Python does not undo
    assignments. *)
Definition M (A : Type) : Type := State -> result A * State * list (list byte).

Definition ret {A} (a : A) : M A := fun s => (Ok a, s, []).

Definition bind {A B} (m : M A) (f : A -> M B) : M B :=
  fun s =>
    match m s with
    | (Ok a, s1, o1) => let '(r, s2, o2) := f a s1 in (r, s2, o1 ++ o2)
    | (Raise e, s1, o1) => (Raise e, s1, o1)
    end.

Definition raise {A} (e : exn) : M A := fun s => (Raise e, s, []).
Definition lift {A} (r : result A) : M A := fun s => (r, s, []).
Definition gets {A} (f : State -> A) : M A := fun s => (Ok (f s), s, []).
Definition modify (f : State -> State) : M unit := fun s => (Ok tt, f s, []).

(** [sock.sendto(message, (ip, port))]: one datagram, fire and forget.
    The socket is taken to accept every datagram: an OSError of [socket()]
    or [sendto()] and a KeyboardInterrupt are outside the model, as are
    failing reads of a line. Every statement below about a computation that
    returns is made under this assumption. *)
Definition sendto (message : list byte) : M unit := fun s => (Ok tt, s, [message]).

(** [try: m except Exception as e: h e] *)
Definition try_except {A} (m : M A) (h : exn -> M A) : M A :=
  fun s =>
    match m s with
    | (Ok a, s1, o1) => (Ok a, s1, o1)
    | (Raise e, s1, o1) => let '(r, s2, o2) := h e s1 in (r, s2, o1 ++ o2)
    end.

Declare Scope monad_scope.
Delimit Scope monad_scope with monad.
Notation "x <- m ;; k" := (bind m (fun x => k))
  (at level 61, m at next level, right associativity) : monad_scope.
Notation "' p <- m ;; k" := (bind m (fun x => match x with p => k end))
  (at level 61, p pattern, m at next level, right associativity) : monad_scope.
Notation "m ;; k" := (bind m (fun _ => k))
  (at level 61, right associativity) : monad_scope.
Local Open Scope monad_scope.

(** [d[k]] *)
Definition getitem {K V} (eqb : K -> K -> bool) (d : dict K V) (k : K) : M V :=
  match dict_get eqb k d with
  | Some v => ret v
  | None => raise KeyError
  end.

(** [for x in l: body x] *)
Fixpoint for_each {A} (l : list A) (body : A -> M unit) : M unit :=
  match l with
  | [] => ret tt
  | x :: l' => body x ;; for_each l' body
  end.

(** [for _ in range(n): body] *)
Fixpoint for_range (n : nat) (body : M unit) : M unit :=
  match n with
  | O => ret tt
  | S n' => body ;; for_range n' body
  end.

Definition res {A} (x : result A * State * list (list byte)) : result A := fst (fst x).
Definition st {A} (x : result A * State * list (list byte)) : State := snd (fst x).
Definition out {A} (x : result A * State * list (list byte)) : list (list byte) := snd x.

(** ** class GPIOReader (lines 10-63) *)

(** [gpiod.Chip(chip_name)]: a new open chip; its index is returned. *)
Definition Chip_open (name : string) : M nat :=
  fun s => (Ok (List.length (chips s)),
            set_chips (chips s ++ [{| chip_name := name; chip_open := true |}]) s,
            []).

Fixpoint close_at (i : nat) (cs : list Chip) : list Chip :=
  match cs, i with
  | [], _ => []
  | c :: cs', O => {| chip_name := chip_name c; chip_open := false |} :: cs'
  | c :: cs', S i' => c :: close_at i' cs'
  end.

(** [chip.close()] *)
Definition Chip_close (chip : nat) : M unit :=
  modify (fun s => set_chips (close_at chip (chips s)) s).

Definition _find_gpio_chip_and_line (pf : Platform) (pin_number : Z) : M (string * Z) :=
  match gpiofind pf pin_number with
  | Some (chip_name, line) => ret (chip_name, line)
  | None => raise ValueError
  end.

Definition cleanup : M unit :=
  pm <- gets pin_mappings ;;
  for_each (dict_values pm) (fun '(chip, _) => Chip_close chip) ;;
  modify (set_pin_mappings []).

Definition _setup_gpio (pf : Platform) (pin_numbers : list Z) : M unit :=
  try_except
    (for_each pin_numbers (fun pin =>
       '(chip_name, line_offset) <- _find_gpio_chip_and_line pf pin ;;
       chip <- Chip_open chip_name ;;
       let line := line_offset in
       modify (fun s => set_pin_mappings (dict_set Z.eqb pin (chip, line) (pin_mappings s)) s)))
    (fun _ => cleanup ;; raise RuntimeError).

Definition GPIOReader_init (pf : Platform) (pin_numbers : list Z) : M unit :=
  modify (set_pin_mappings []) ;;
  _setup_gpio pf pin_numbers.

Fixpoint read_all_from (get_value : Z -> Z) (pins : list Z) (vals : dict Z Z) : M (dict Z Z) :=
  match pins with
  | [] => ret vals
  | pin :: pins' =>
      pm <- gets pin_mappings ;;
      _ <- getitem Z.eqb pm pin ;;
      read_all_from get_value pins' (dict_set Z.eqb pin (get_value pin) vals)
  end.

Definition read_all (pin_numbers : list Z) (get_value : Z -> Z) : M (dict Z Z) :=
  read_all_from get_value pin_numbers [].

Definition GPIOReader_exit : M unit := cleanup.

(** ** send_msp_message (lines 65-78) and send_initial_setup (lines 87-103) *)

Definition send_msp_message (direction : string) (cmd : Z) (payload : list byte) : M unit :=
  message <- lift (msp_message direction cmd payload) ;;
  sendto message.

Definition send_initial_setup : M unit :=
  for_range 100 (
    subcommand <- lift (bytes [2]) ;;
    send_msp_message ">" 182 subcommand ;;
    subcommand <- lift (bytes [4]) ;;
    send_msp_message ">" 182 subcommand) ;;
  subcommand <- lift (bytes [0]) ;;
  send_msp_message ">" 101 subcommand.

(** ** main (lines 105-230) *)

Definition cmd : Z := 105.

Definition key_mapping : dict string (list Z) :=
  [ ("w", [1500; 2000; 1500; 1500]);
    ("a", [2000; 1500; 1500; 1500]);
    ("s", [1500; 1000; 1500; 1500]);
    ("d", [2000; 1500; 1500; 1500]);
    ("m", [2000; 1000; 1000; 1000]);
    ("x", [1500; 1500; 1000; 1500]);
    ("0", [1500; 1500; 1500; 1500]) ]%string.

Definition gpio_mapping : dict Z string :=
  [ (16, "w"); (13, "a"); (18, "s"); (11, "d"); (32, "m"); (38, "x") ]%string.

Definition pin_numbers : list Z := dict_keys gpio_mapping.

(** Line 157: [state == 1 and last_gpio_states[pin] == 0]; the dict is only
    consulted when the left operand holds. *)
Definition rising_edge (pin state : Z) : M bool :=
  if state =? 1 then
    last <- gets last_gpio_states ;;
    l <- getitem Z.eqb last pin ;;
    ret (l =? 0)
  else ret false.

(** Lines 158-189: what a rising edge on [pin] sets off. *)
Definition gpio_pressed (pin : Z) : M unit :=
  ini <- gets initialized ;;
  (if negb ini then modify (set_first_input true) else ret tt) ;;
  key <- getitem Z.eqb gpio_mapping pin ;;
  new <- getitem String.eqb key_mapping key ;;
  modify (fun s => set_values (assign_upto 4 new (values s)) s) ;;
  modify (fun s => set_values (assign_from 4 (repeat 1500 12) (values s)) s) ;;
  fi <- gets first_input ;;
  (if fi : bool then
     send_initial_setup ;;
     modify (set_initialized true)
   else ret tt) ;;
  subcommand <- lift (bytes [0]) ;;
  send_msp_message ">" 182 subcommand ;;
  subcommand <- lift (bytes [2]) ;;
  send_msp_message ">" 182 subcommand ;;
  vs <- gets values ;;
  payload <- lift (struct_pack_le_H vs) ;;
  send_msp_message "<" cmd payload ;;
  new <- getitem String.eqb key_mapping "0"%string ;;
  modify (fun s => set_values (assign_upto 4 new (values s)) s) ;;
  modify (fun s => set_values (assign_from 4 (repeat 1500 12) (values s)) s) ;;
  vs <- gets values ;;
  payload <- lift (struct_pack_le_H vs) ;;
  send_msp_message "<" cmd payload ;;
  subcommand <- lift (bytes [4]) ;;
  send_msp_message ">" 182 subcommand.

(** The body of [for pin, state in gpio_states.items()] (lines 156-189). *)
Definition gpio_item (pin state : Z) : M unit :=
  rising <- rising_edge pin state ;;
  if rising : bool then gpio_pressed pin else ret tt.

(** Lines 151-192: read the pins, serve every rising edge, remember the
    samples. *)
Definition check_gpio_inputs (t : Tick) : M unit :=
  gpio_states <- read_all pin_numbers (levels t) ;;
  modify (set_first_input false) ;;
  for_each gpio_states (fun '(pin, state) => gpio_item pin state) ;;
  modify (set_last_gpio_states gpio_states).

(** The body of [if user_input in key_mapping] (lines 201-223). *)
Definition key_item (user_input : string) : M unit :=
  ini <- gets initialized ;;
  (if negb ini then
     send_initial_setup ;;
     modify (set_initialized true)
   else ret tt) ;;
  new <- getitem String.eqb key_mapping user_input ;;
  modify (fun s => set_values (assign_upto 4 new (values s)) s) ;;
  modify (fun s => set_values (assign_from 4 (repeat 1500 12) (values s)) s) ;;
  subcommand <- lift (bytes [0]) ;;
  send_msp_message ">" 182 subcommand ;;
  subcommand <- lift (bytes [2]) ;;
  send_msp_message ">" 182 subcommand ;;
  vs <- gets values ;;
  payload <- lift (struct_pack_le_H vs) ;;
  send_msp_message "<" cmd payload ;;
  new <- getitem String.eqb key_mapping "0"%string ;;
  modify (fun s => set_values (assign_upto 4 new (values s)) s) ;;
  modify (fun s => set_values (assign_from 4 (repeat 1500 12) (values s)) s) ;;
  vs <- gets values ;;
  payload <- lift (struct_pack_le_H vs) ;;
  send_msp_message "<" cmd payload ;;
  subcommand <- lift (bytes [4]) ;;
  send_msp_message ">" 182 subcommand.

Inductive control : Type := Continue | Break.

(** Lines 194-225: the keyboard half of a turn. *)
Definition check_keyboard_input (user_input : string) : M control :=
  if String.eqb user_input "q" then ret Break
  else
    (if dict_mem String.eqb user_input key_mapping then key_item user_input
     else ret tt) ;;
    ret Continue.

Definition loop_body (t : Tick) : M control :=
  check_gpio_inputs t ;;
  check_keyboard_input (user_input t).

(** [while True] over the turns the environment supplies. [true]: the loop
    was left by [break]; [false]: the turns are used up and the loop is
    still waiting for the next one. *)
Fixpoint while_true (ticks : list Tick) : M bool :=
  match ticks with
  | [] => ret false
  | t :: ticks' =>
      c <- loop_body t ;;
      match c with
      | Break => ret true
      | Continue => while_true ticks'
      end
  end.

(** [with GPIOReader(pin_numbers) as gpio: body]. An exception of the
    constructor leaves no object to exit; once inside, [__exit__] runs when
    the block is left, by [break] or by an exception, which it lets through. *)
Definition with_GPIOReader (pf : Platform) (body : M bool) : M bool :=
  GPIOReader_init pf pin_numbers ;;
  fun s =>
    match body s with
    | (Ok false, s1, o1) => (Ok false, s1, o1)
    | (Ok true, s1, o1) =>
        let '(r, s2, o2) := GPIOReader_exit s1 in
        (match r with Ok _ => Ok true | Raise e => Raise e end, s2, o1 ++ o2)
    | (Raise e, s1, o1) =>
        let '(r, s2, o2) := GPIOReader_exit s1 in
        (match r with Ok _ => Raise e | Raise e' => Raise e' end, s2, o1 ++ o2)
    end.

(** How a run stands after the supplied turns. *)
Inductive status : Type :=
| Running              (* still in the loop *)
| Exited               (* left by 'q' *)
| Failed (e : exn).    (* an exception reached [except Exception] *)

(** The state at line 146: [values = [1500] * 16], [initialized = False],
    nothing opened yet. *)
Definition initial_state : State :=
  mkState [] [] (repeat 1500 16) false [] false.

Definition main (pf : Platform) (ticks : list Tick) : status * State * list (list byte) :=
  let block :=
    with_GPIOReader pf (
      modify (set_last_gpio_states
                (fold_left (fun d pin => dict_set Z.eqb pin 0 d) pin_numbers [])) ;;
      while_true ticks) in
  match block initial_state with
  | (Ok true, s, o) => (Exited, s, o)
  | (Ok false, s, o) => (Running, s, o)
  | (Raise e, s, o) => (Failed e, s, o)
  end.

Definition status_of (r : status * State * list (list byte)) : status := fst (fst r).
Definition state_of (r : status * State * list (list byte)) : State := snd (fst r).
Definition sent (r : status * State * list (list byte)) : list (list byte) := snd r.

(** A platform that knows every pin. *)
Definition demo_platform : Platform :=
  {| gpiofind := fun pin => Some ("gpiochip0"%string, pin) |}.

(** ** Vocabulary of the statements *)

(** The XOR-fold of a sequence of integers, in order. *)
Definition xor_fold (l : list Z) : Z := fold_left Z.lxor l 0.

(** A call [send_msp_message(ip, port, direction, cmd, payload)] and the
    datagram it puts on the wire. *)
Definition call : Type := (string * Z * list byte)%type.

Definition encodes (c : call) (message : list byte) : Prop :=
  let '(direction, command_id, payload) := c in
  msp_message direction command_id payload = Ok message.

(** Fields of a datagram, by position. *)
Definition frame_direction (message : list byte) : byte := nth 2 message x00.
Definition frame_command (message : list byte) : Z := int_of_byte (nth 4 message x00).
Definition frame_payload (message : list byte) : list byte :=
  firstn (Z.to_nat (int_of_byte (nth 3 message x00))) (skipn 5 message).

(** The datagram of a call, empty should the call raise. *)
Definition frame (direction : string) (command_id : Z) (payload : list byte) : list byte :=
  match msp_message direction command_id payload with
  | Ok message => message
  | Raise _ => []
  end.

Definition packed (vs : list Z) : list byte :=
  match struct_pack_le_H vs with
  | Ok payload => payload
  | Raise _ => []
  end.

Definition neutral : list Z := repeat 1500 16.

(** The calls of [send_initial_setup], in order. *)
Definition init_calls : list call :=
  List.concat (repeat [(">"%string, 182, [x02]); (">"%string, 182, [x04])] 100)
  ++ [(">"%string, 101, [x00])].

Definition init_burst : list (list byte) :=
  List.concat (repeat [frame ">" 182 [x02]; frame ">" 182 [x04]] 100)
  ++ [frame ">" 101 [x00]].

(** The five datagrams that follow a key whose table entry is [vector]. *)
Definition command_burst (vector : list Z) : list (list byte) :=
  [ frame ">" 182 [x00];
    frame ">" 182 [x02];
    frame "<" 105 (packed (vector ++ repeat 1500 12));
    frame "<" 105 (packed neutral);
    frame ">" 182 [x04] ].

Definition key_burst (key : string) : list (list byte) :=
  match dict_get String.eqb key key_mapping with
  | Some vector => command_burst vector
  | None => []
  end.

Definition pin_burst (pin : Z) : list (list byte) :=
  match dict_get Z.eqb pin gpio_mapping with
  | Some key => key_burst key
  | None => []
  end.

(** Marker and init frames travel with '>', control-vector frames with '<'. *)
Definition direction_ok (message : list byte) : bool :=
  ((frame_command message =? 182) || (frame_command message =? 101))
    && Byte.eqb (frame_direction message) ">"%byte
  || (frame_command message =? 105) && Byte.eqb (frame_direction message) "<"%byte.

(** The datagrams sent during turn [i] of a run over [ticks] (turns count
    from 0). *)
Definition sent_in_turn (pf : Platform) (ticks : list Tick) (i : nat) : list (list byte) :=
  skipn (List.length (sent (main pf (firstn i ticks))))
        (sent (main pf (firstn (S i) ticks))).

(** The platform found every pin. *)
Definition setup_ok (pf : Platform) : Prop :=
  forall pin, In pin pin_numbers -> gpiofind pf pin <> None.

(** The loop can read and compare every pin. *)
Definition ready (s : State) : Prop :=
  dict_keys (pin_mappings s) = pin_numbers /\
  dict_keys (last_gpio_states s) = pin_numbers.

(** The state in which [main] enters [while True] (line 150). *)
Definition loop_entry (pf : Platform) : State :=
  set_last_gpio_states
    (fold_left (fun d pin => dict_set Z.eqb pin 0 d) pin_numbers [])
    (st (GPIOReader_init pf pin_numbers initial_state)).

(** Every chip is closed and the reader holds no pin any more. *)
Definition released (s : State) : Prop :=
  pin_mappings s = [] /\ Forall (fun c => chip_open c = false) (chips s).

(** A turn with the listed pins high, the others low, and [line] typed. *)
Definition turn (high : list Z) (line : string) : Tick :=
  {| levels := fun pin => if existsb (Z.eqb pin) high then 1 else 0;
     user_input := line |}.



(** The pins of [items] that show a rising edge against the remembered
    samples [last], in the order of [items]. *)
Definition rising (last : dict Z Z) (item : Z * Z) : bool :=
  let '(pin, state) := item in
  (state =? 1) &&
  match dict_get Z.eqb pin last with Some l => l =? 0 | None => false end.

Definition accepted_pins (last items : dict Z Z) : list Z :=
  map fst (filter (rising last) items).

(** The chips after [chip.close()] on each of [handles] in turn. *)
Definition close_all (handles : list nat) (cs : list Chip) : list Chip :=
  fold_left (fun cs h => close_at h cs) handles cs.

Definition closed (c : Chip) : Chip :=
  {| chip_name := chip_name c; chip_open := false |}.

(** What [gpiofind] answered for a pin it knows. *)
Definition found (pf : Platform) (pin : Z) : string * Z :=
  match gpiofind pf pin with
  | Some r => r
  | None => (""%string, 0)
  end.

(** The number of pins at the head of [pins] that [gpiofind] knows. *)
Fixpoint found_before (pf : Platform) (pins : list Z) : nat :=
  match pins with
  | [] => O
  | pin :: pins' =>
      match gpiofind pf pin with
      | Some _ => S (found_before pf pins')
      | None => O
      end
  end.

(** A platform on which [gpiofind PIN_18] fails. *)
Definition platform_without_18 : Platform :=
  {| gpiofind := fun pin => if pin =? 18 then None else Some ("gpiochip1"%string, pin) |}.

(** What [read_all] returns on a turn. *)
Definition readings (t : Tick) : dict Z Z :=
  map (fun pin => (pin, levels t pin)) pin_numbers.

(** The line typed on a turn is a key of the table. *)
Definition typed_key (t : Tick) : bool :=
  dict_mem String.eqb (user_input t) key_mapping.

Definition is_nil {A} (l : list A) : bool :=
  match l with [] => true | _ :: _ => false end.

(** A turn as a function of the state it starts from: the datagrams it
    sends and the state it leaves. Every rising pin is answered by its
    command burst, after the initialization burst when the turn started
    with the flag down; the key typed is answered by its command burst,
    after the initialization burst when the flag is still down. *)
Definition turn_out (s : State) (t : Tick) : list (list byte) :=
  let acc := accepted_pins (last_gpio_states s) (readings t) in
  List.concat
    (map (fun pin => (if initialized s then [] else init_burst) ++ pin_burst pin) acc)
  ++ (if typed_key t then
        (if initialized s || negb (is_nil acc) then [] else init_burst)
        ++ key_burst (user_input t)
      else []).

Definition after_turn (s : State) (t : Tick) : State :=
  let acc := accepted_pins (last_gpio_states s) (readings t) in
  mkState (chips s) (pin_mappings s)
    (if is_nil acc && negb (typed_key t) then values s else neutral)
    (initialized s || negb (is_nil acc) || typed_key t)
    (readings t)
    (if is_nil acc then false else negb (initialized s)).

Definition quits (t : Tick) : bool := String.eqb (user_input t) "q".

(** A datagram a receiver accepts: "$M", a size byte that matches the
    length, a zero XOR over size, command, payload and checksum, and either
    a one-byte payload under command 182 or 101 or a 32-byte payload under
    command 105. *)
Definition well_formed (message : list byte) : bool :=
  Byte.eqb (nth 0 message x00) "$"%byte
  && Byte.eqb (nth 1 message x00) "M"%byte
  && (Z.of_nat (List.length message) =? 6 + int_of_byte (nth 3 message x00))
  && (xor_fold (map int_of_byte (skipn 3 message)) =? 0)
  && (((frame_command message =? 182) || (frame_command message =? 101))
        && (List.length message =? 7)%nat
      || (frame_command message =? 105) && (List.length message =? 38)%nat).

(** How often the one-shot frame of command 101 occurs. *)
Definition count_init (l : list (list byte)) : nat :=
  List.length (filter (fun m => frame_command m =? 101) l).

(** At most one pin is high on the turn. *)
Definition one_high (t : Tick) : Prop :=
  (List.length (filter (fun pin => (levels t pin =? 1)%Z) pin_numbers) <= 1)%nat.


(** * Properties *)

(** ** Bytes and the XOR checksum *)

Lemma int_of_byte_range (b : byte) : 0 <= int_of_byte b <= 255.
Proof.
  unfold int_of_byte. pose proof (Byte.to_N_bounded b). lia.
Qed.

Lemma byte_of_int_Some (n : Z) :
  0 <= n <= 255 -> exists b, byte_of_int n = Some b /\ int_of_byte b = n.
Proof.
  intros Hn. unfold byte_of_int.
  replace (0 <=? n) with true by (symmetry; apply Z.leb_le; lia).
  destruct (Byte.of_N (Z.to_N n)) as [b|] eqn:E.
  - exists b. split; [reflexivity|].
    apply Byte.to_of_N in E. unfold int_of_byte. rewrite E. lia.
  - apply Byte.of_N_None_iff in E. lia.
Qed.

Lemma bytes_singleton (n : Z) :
  0 <= n <= 255 -> exists b, bytes [n] = Ok [b] /\ int_of_byte b = n.
Proof.
  intros Hn. destruct (byte_of_int_Some n Hn) as (b & E & Hb).
  exists b. simpl. rewrite E. auto.
Qed.

Lemma lxor_below_256 (a b : Z) :
  0 <= a <= 255 -> 0 <= b <= 255 -> 0 <= Z.lxor a b <= 255.
Proof.
  intros Ha Hb.
  assert (H0 : 0 <= Z.lxor a b) by (apply Z.lxor_nonneg; lia).
  split; [exact H0|].
  destruct (Z.eq_dec (Z.lxor a b) 0) as [E|E]; [lia|].
  assert (Hl : Z.log2 (Z.lxor a b) < 8).
  { eapply Z.le_lt_trans; [apply Z.log2_lxor; lia|].
    apply Z.max_lub_lt.
    - destruct (Z.eq_dec a 0) as [->|]; [reflexivity|].
      apply Z.log2_lt_pow2; lia.
    - destruct (Z.eq_dec b 0) as [->|]; [reflexivity|].
      apply Z.log2_lt_pow2; lia. }
  apply Z.log2_lt_pow2 in Hl; lia.
Qed.

(** The loop of lines 72-73 keeps the checksum a byte and computes the XOR
    of its start value with the XOR of the payload. *)
Lemma checksum_loop (payload : list byte) (c : Z) :
  0 <= c <= 255 ->
  let r := fold_left (fun c b => Z.lxor c (int_of_byte b)) payload c in
  0 <= r <= 255 /\ r = Z.lxor c (payload_xor payload).
Proof.
  revert c. induction payload as [|b payload IH]; intros c Hc; simpl.
  - rewrite Z.lxor_0_r. auto.
  - destruct (IH (Z.lxor c (int_of_byte b))) as [Hr Hx].
    { apply lxor_below_256; [exact Hc | apply int_of_byte_range]. }
    split; [exact Hr|]. rewrite Hx. apply Z.lxor_assoc.
Qed.

Lemma xor_fold_frame (size command_id : Z) (payload : list byte) :
  xor_fold (size :: command_id :: map int_of_byte payload)
  = Z.lxor (Z.lxor size command_id) (payload_xor payload).
Proof.
  unfold xor_fold. simpl fold_left.
  generalize (Z.lxor size command_id). intros c.
  revert c. induction payload as [|b payload IH]; intros c; simpl.
  - now rewrite Z.lxor_0_r.
  - rewrite IH. apply Z.lxor_assoc.
Qed.

(** C1: for a one-character ASCII direction tag, a command id in 0..255 and a
    payload of at most 255 bytes, [send_msp_message] sends exactly one
    datagram: the two bytes "$M", the direction byte, a size byte equal to
    the payload length, the command byte, the payload, and a checksum byte
    equal to the XOR-fold of size, command id and every payload byte in
    order. The payload bytes contribute 0 to that fold when the payload is
    empty, so the checksum of an empty frame is the command id, not 0. The
    datagram is 6 + payload length bytes long. *)
Theorem send_msp_message_frame_layout
    (c : ascii) (command_id : Z) (payload : list byte) (s : State) :
  (nat_of_ascii c < 128)%nat ->
  0 <= command_id <= 255 ->
  (List.length payload <= 255)%nat ->
  exists (bsize bcmd bsum : byte) (message : list byte),
    message = ["$"%byte; "M"%byte; byte_of_ascii c; bsize; bcmd] ++ payload ++ [bsum] /\
    msp_message (String c EmptyString) command_id payload = Ok message /\
    send_msp_message (String c EmptyString) command_id payload s = (Ok tt, s, [message]) /\
    int_of_byte bsize = Z.of_nat (List.length payload) /\
    int_of_byte bcmd = command_id /\
    int_of_byte bsum
      = xor_fold (Z.of_nat (List.length payload) :: command_id :: map int_of_byte payload) /\
    int_of_byte bsum
      = Z.lxor (Z.lxor (Z.of_nat (List.length payload)) command_id) (payload_xor payload) /\
    (payload = [] -> payload_xor payload = 0 /\ int_of_byte bsum = command_id) /\
    List.length message = (6 + List.length payload)%nat.
Proof.
  intros _ Hcmd Hlen.
  set (size := Z.of_nat (List.length payload)).
  assert (Hsize : 0 <= size <= 255) by (unfold size; lia).
  destruct (bytes_singleton size Hsize) as (bsize & Esize & Hbsize).
  destruct (bytes_singleton command_id Hcmd) as (bcmd & Ecmd & Hbcmd).
  destruct (checksum_loop payload (Z.lxor size command_id)) as [Hr Hx].
  { apply lxor_below_256; assumption. }
  destruct (bytes_singleton _ Hr) as (bsum & Esum & Hbsum).
  assert (Emsg : msp_message (String c EmptyString) command_id payload
                 = Ok (["$"%byte; "M"%byte; byte_of_ascii c; bsize; bcmd] ++ payload ++ [bsum])).
  { unfold msp_message. fold size. rewrite Esize, Ecmd, Esum. reflexivity. }
  exists bsize, bcmd, bsum, (["$"%byte; "M"%byte; byte_of_ascii c; bsize; bcmd] ++ payload ++ [bsum]).
  split; [reflexivity|]. split; [exact Emsg|].
  split. { unfold send_msp_message, bind, lift, sendto. rewrite Emsg. reflexivity. }
  split; [exact Hbsize|]. split; [exact Hbcmd|].
  split. { rewrite Hbsum, xor_fold_frame. exact Hx. }
  split. { rewrite Hbsum. exact Hx. }
  split.
  - intros ->. split; [reflexivity|].
    rewrite Hbsum. subst size. simpl. apply Z.lxor_0_l.
  - simpl. rewrite length_app. simpl. lia.
Qed.

Lemma send_msp_message_frame_layout_witness :
  (nat_of_ascii ">" < 128)%nat /\
  0 <= 182 <= 255 /\
  (List.length [x02] <= 255)%nat /\
  exists (bsize bcmd bsum : byte) (message : list byte),
    message = ["$"%byte; "M"%byte; byte_of_ascii ">"%char; bsize; bcmd] ++ [x02] ++ [bsum] /\
    msp_message ">" 182 [x02] = Ok message /\
    send_msp_message ">" 182 [x02] initial_state = (Ok tt, initial_state, [message]) /\
    int_of_byte bsize = Z.of_nat (List.length [x02]) /\
    int_of_byte bcmd = 182 /\
    int_of_byte bsum = xor_fold (Z.of_nat (List.length [x02]) :: 182 :: map int_of_byte [x02]) /\
    int_of_byte bsum
      = Z.lxor (Z.lxor (Z.of_nat (List.length [x02])) 182) (payload_xor [x02]) /\
    ([x02] = [] -> payload_xor [x02] = 0 /\ int_of_byte bsum = 182) /\
    List.length message = (6 + List.length [x02])%nat.
Proof.
  assert (H1 : (nat_of_ascii ">" < 128)%nat) by (apply Nat.ltb_lt; reflexivity).
  assert (H2 : 0 <= 182 <= 255) by lia.
  assert (H3 : (List.length [x02] <= 255)%nat) by (simpl; lia).
  split; [exact H1|]. split; [exact H2|]. split; [exact H3|].
  exact (send_msp_message_frame_layout ">"%char 182 [x02] initial_state H1 H2 H3).
Defined.

(** The frame of command 105 with an empty payload ends in the checksum
    byte 0x69 = 105 = size XOR command id: the checksum of an empty frame
    is not 0. *)
Lemma empty_frame_checksum_is_not_zero :
  msp_message "<" 105 [] = Ok ["$"%byte; "M"%byte; "<"%byte; x00; x69; x69] /\
  ~ (exists (bsize bcmd bsum : byte),
       msp_message "<" 105 []
       = Ok (["$"%byte; "M"%byte; "<"%byte; bsize; bcmd] ++ [] ++ [bsum]) /\
       int_of_byte bsum = 0).
Proof.
  split; [reflexivity|].
  intros (bsize & bcmd & bsum & E & H).
  change (msp_message "<" 105 [])
    with (@Ok (list byte) ["$"%byte; "M"%byte; "<"%byte; x00; x69; x69]) in E.
  injection E as _ _ <-. discriminate H.
Qed.

(** ** Runs of the senders *)

Lemma send_initial_setup_run (s : State) :
  send_initial_setup s = (Ok tt, s, init_burst).
Proof. vm_compute. reflexivity. Qed.

Lemma init_burst_encodes : Forall2 encodes init_calls init_burst.
Proof.
  unfold init_calls, init_burst.
  apply Forall2_app.
  - generalize 100%nat. intros n. induction n as [|n IH]; simpl.
    + constructor.
    + constructor; [reflexivity|]. constructor; [reflexivity|exact IH].
  - constructor; [reflexivity|constructor].
Qed.

Lemma gpio_pressed_run pin ch pm vals ini lst fi :
  In pin pin_numbers ->
  gpio_pressed pin (mkState ch pm vals ini lst fi)
  = (Ok tt,
     mkState ch pm neutral true lst (fi || negb ini),
     (if fi || negb ini then init_burst else []) ++ pin_burst pin).
Proof.
  intros Hpin. simpl in Hpin.
  repeat (destruct Hpin as [<-|Hpin]; [destruct ini, fi; vm_compute; reflexivity|]).
  contradiction.
Qed.

Lemma key_item_run key ch pm vals ini lst fi :
  In key (dict_keys key_mapping) ->
  key_item key (mkState ch pm vals ini lst fi)
  = (Ok tt,
     mkState ch pm neutral true lst fi,
     (if ini then [] else init_burst) ++ key_burst key).
Proof.
  intros Hkey. simpl in Hkey.
  repeat (destruct Hkey as [<-|Hkey]; [destruct ini; vm_compute; reflexivity|]).
  contradiction.
Qed.

(** ** Sequencing *)

Lemma bind_run {A B} (m : M A) (f : A -> M B) s a s1 o1 r s2 o2 :
  m s = (Ok a, s1, o1) ->
  f a s1 = (r, s2, o2) ->
  bind m f s = (r, s2, o1 ++ o2).
Proof. intros Hm Hf. unfold bind. rewrite Hm, Hf. reflexivity. Qed.

Lemma bind_quiet {A B} (m : M A) (f : A -> M B) s a s1 :
  m s = (Ok a, s1, []) ->
  bind m f s = f a s1.
Proof.
  intros Hm. unfold bind. rewrite Hm.
  destruct (f a s1) as [[r s2] o2]. reflexivity.
Qed.

Lemma bind_raise {A B} (m : M A) (f : A -> M B) s e s1 o1 :
  m s = (Raise e, s1, o1) ->
  bind m f s = (Raise e, s1, o1).
Proof. intros Hm. unfold bind. rewrite Hm. reflexivity. Qed.

(** ** Dicts *)

Lemma dict_get_keys_Z {V} (k : Z) (d : dict Z V) :
  In k (dict_keys d) -> exists v, dict_get Z.eqb k d = Some v.
Proof.
  induction d as [|[k' v'] d IH]; simpl; [contradiction|].
  intros [->|Hin].
  - rewrite Z.eqb_refl. eauto.
  - destruct (k =? k'); eauto.
Qed.

Lemma dict_get_Some_keys_string {V} (k : string) (d : dict string V) v :
  dict_get String.eqb k d = Some v -> In k (dict_keys d).
Proof.
  induction d as [|[k' v'] d IH]; simpl; [discriminate|].
  destruct (String.eqb k k') eqn:E.
  - apply String.eqb_eq in E. auto.
  - auto.
Qed.

(** ** What a piece of a turn may do

    [Step s s' o] collects what holds of every piece of the loop that runs
    to its end from [s], reaching [s'] and sending [o]: the reader's
    resources are left alone, the flag is never cleared, nothing is sent
    before the flag is set unless the initial burst comes first, and every
    datagram has the direction of its command. *)
Record Step (s s' : State) (o : list (list byte)) : Prop := mkStep {
  step_chips : chips s' = chips s;
  step_pins : pin_mappings s' = pin_mappings s;
  step_keys : dict_keys (last_gpio_states s') = dict_keys (last_gpio_states s);
  step_flag : initialized s = true -> initialized s' = true;
  step_first :
    initialized s = false ->
    (o = [] /\ initialized s' = false) \/
    (initialized s' = true /\ exists rest, o = init_burst ++ rest);
  step_dirs : forallb direction_ok o = true
}.

Lemma Step_refl s : Step s s [].
Proof. constructor; auto. Qed.

Lemma Step_trans s s1 s2 o1 o2 :
  Step s s1 o1 -> Step s1 s2 o2 -> Step s s2 (o1 ++ o2).
Proof.
  intros [c1 p1 k1 f1 b1 d1] [c2 p2 k2 f2 b2 d2].
  constructor; try congruence.
  - auto.
  - intros Hs. destruct (b1 Hs) as [[-> Hi]|[Hi [rest ->]]].
    + simpl. auto.
    + right. split; [auto|]. exists (rest ++ o2). now rewrite app_assoc.
  - rewrite forallb_app, d1, d2. reflexivity.
Qed.

Lemma Step_ready s s' o : ready s -> Step s s' o -> ready s'.
Proof.
  intros [Hp Hl] H. split.
  - now rewrite (step_pins _ _ _ H).
  - now rewrite (step_keys _ _ _ H).
Qed.

Lemma init_burst_dirs : forallb direction_ok init_burst = true.
Proof. vm_compute. reflexivity. Qed.

Lemma pin_burst_dirs pin : In pin pin_numbers -> forallb direction_ok (pin_burst pin) = true.
Proof.
  intros H. simpl in H.
  repeat (destruct H as [<-|H]; [vm_compute; reflexivity|]). contradiction.
Qed.

Lemma key_burst_dirs key :
  In key (dict_keys key_mapping) -> forallb direction_ok (key_burst key) = true.
Proof.
  intros H. simpl in H.
  repeat (destruct H as [<-|H]; [vm_compute; reflexivity|]). contradiction.
Qed.

(** ** The pin half of a turn *)

Lemma rising_edge_run pin state s :
  ready s -> In pin pin_numbers ->
  exists b, rising_edge pin state s = (Ok b, s, []) /\
            (b = true <-> state = 1 /\ dict_get Z.eqb pin (last_gpio_states s) = Some 0).
Proof.
  intros [_ Hl] Hpin. unfold rising_edge.
  destruct (state =? 1) eqn:E.
  - apply Z.eqb_eq in E.
    destruct (dict_get_keys_Z pin (last_gpio_states s)) as [l Hget].
    { now rewrite Hl. }
    exists (l =? 0). split.
    + unfold bind, gets, getitem. rewrite Hget. reflexivity.
    + rewrite Hget, Z.eqb_eq. split.
      * intros ->. auto.
      * intros [_ H]. congruence.
  - exists false. split; [reflexivity|].
    apply Z.eqb_neq in E. split; [discriminate|]. intros [H _]. contradiction.
Qed.

(** An item of the loop over the pins either is no rising edge and does
    nothing, or runs [gpio_pressed]. *)
Lemma gpio_item_run pin state s :
  ready s -> In pin pin_numbers ->
  (state = 1 /\ dict_get Z.eqb pin (last_gpio_states s) = Some 0 /\
   gpio_item pin state s = gpio_pressed pin s)
  \/
  (~ (state = 1 /\ dict_get Z.eqb pin (last_gpio_states s) = Some 0) /\
   gpio_item pin state s = (Ok tt, s, [])).
Proof.
  intros Hr Hpin.
  destruct (rising_edge_run pin state s Hr Hpin) as (b & Hrun & Hb).
  unfold gpio_item. rewrite (bind_quiet _ _ _ _ _ Hrun).
  destruct b.
  - left. destruct Hb as [Hb _]. destruct (Hb eq_refl) as [H1 H2].
    split; [exact H1|]. split; [exact H2|reflexivity].
  - right. split; [|reflexivity].
    intros H. apply Hb in H. discriminate.
Qed.

Lemma gpio_pressed_step pin s :
  In pin pin_numbers ->
  exists s' o, gpio_pressed pin s = (Ok tt, s', o) /\ Step s s' o.
Proof.
  intros Hpin. destruct s as [ch pm vals ini lst fi].
  rewrite (gpio_pressed_run pin ch pm vals ini lst fi Hpin).
  eexists _, _. split; [reflexivity|].
  constructor; cbn [chips pin_mappings last_gpio_states initialized]; auto.
  - intros ->. rewrite orb_true_r. right. split; [reflexivity|]. eauto.
  - rewrite forallb_app, (pin_burst_dirs pin Hpin), andb_true_r.
    destruct (fi || negb ini); [apply init_burst_dirs|reflexivity].
Qed.

Lemma gpio_item_step pin state s :
  ready s -> In pin pin_numbers ->
  exists s' o, gpio_item pin state s = (Ok tt, s', o) /\ Step s s' o.
Proof.
  intros Hr Hpin.
  destruct (gpio_item_run pin state s Hr Hpin) as [(_ & _ & ->)|(_ & ->)].
  - apply gpio_pressed_step. exact Hpin.
  - exists s, []. split; [reflexivity|apply Step_refl].
Qed.

Lemma for_each_items_step (items : dict Z Z) s :
  ready s -> incl (dict_keys items) pin_numbers ->
  exists s' o,
    for_each items (fun '(pin, state) => gpio_item pin state) s = (Ok tt, s', o) /\
    Step s s' o.
Proof.
  revert s. induction items as [|[pin state] items IH]; intros s Hr Hin.
  - exists s, []. split; [reflexivity|apply Step_refl].
  - destruct (gpio_item_step pin state s Hr) as (s1 & o1 & H1 & S1).
    { apply Hin. left. reflexivity. }
    destruct (IH s1) as (s2 & o2 & H2 & S2).
    { eapply Step_ready; eassumption. }
    { intros k Hk. apply Hin. right. exact Hk. }
    exists s2, (o1 ++ o2). split.
    + simpl. eapply bind_run; eassumption.
    + eapply Step_trans; eassumption.
Qed.

Lemma read_all_from_run get_value pins vals s :
  incl pins (dict_keys (pin_mappings s)) ->
  read_all_from get_value pins vals s
  = (Ok (fold_left (fun d pin => dict_set Z.eqb pin (get_value pin) d) pins vals), s, []).
Proof.
  revert vals. induction pins as [|pin pins IH]; intros vals Hin; [reflexivity|].
  destruct (dict_get_keys_Z pin (pin_mappings s)) as [v Hv].
  { apply Hin. left. reflexivity. }
  simpl. unfold bind at 1. unfold gets at 1.
  unfold bind at 1. unfold getitem. rewrite Hv. simpl.
  rewrite IH; [reflexivity|].
  intros k Hk. apply Hin. right. exact Hk.
Qed.

Lemma read_all_run get_value s :
  ready s ->
  read_all pin_numbers get_value s
  = (Ok (map (fun pin => (pin, get_value pin)) pin_numbers), s, []).
Proof.
  intros [Hp _]. unfold read_all. rewrite read_all_from_run.
  - reflexivity.
  - rewrite Hp. apply incl_refl.
Qed.

Lemma check_gpio_inputs_step t s :
  ready s ->
  exists s' o,
    check_gpio_inputs t s = (Ok tt, s', o) /\ Step s s' o /\
    last_gpio_states s' = map (fun pin => (pin, levels t pin)) pin_numbers.
Proof.
  intros Hr. unfold check_gpio_inputs.
  rewrite (bind_quiet _ _ _ _ _ (read_all_run (levels t) s Hr)).
  set (gpio_states := map (fun pin => (pin, levels t pin)) pin_numbers).
  assert (Hkeys : dict_keys gpio_states = pin_numbers) by reflexivity.
  assert (S0 : Step s (set_first_input false s) []) by (constructor; auto).
  destruct (for_each_items_step gpio_states (set_first_input false s))
    as (s1 & o1 & H1 & S1).
  { eapply Step_ready; eassumption. }
  { rewrite Hkeys. apply incl_refl. }
  exists (set_last_gpio_states gpio_states s1), o1.
  split; [|split]; [| |reflexivity].
  - rewrite (bind_quiet _ _ _ _ (set_first_input false s) eq_refl).
    erewrite bind_run; [|exact H1|reflexivity].
    now rewrite app_nil_r.
  - replace o1 with (([] ++ o1) ++ []) by now rewrite app_nil_r.
    eapply Step_trans; [eapply Step_trans; eassumption|].
    constructor; auto.
    cbn [last_gpio_states set_last_gpio_states]. rewrite Hkeys.
    destruct Hr as [_ Hl].
    rewrite (step_keys _ _ _ S1). symmetry. exact Hl.
Qed.

(** ** The keyboard half of a turn *)

Lemma key_item_step key s :
  In key (dict_keys key_mapping) ->
  exists s' o, key_item key s = (Ok tt, s', o) /\ Step s s' o.
Proof.
  intros Hkey. destruct s as [ch pm vals ini lst fi].
  rewrite (key_item_run key ch pm vals ini lst fi Hkey).
  eexists _, _. split; [reflexivity|].
  constructor; cbn [chips pin_mappings last_gpio_states initialized]; auto.
  - intros ->. right. split; [reflexivity|]. eauto.
  - rewrite forallb_app, (key_burst_dirs key Hkey), andb_true_r.
    destruct ini; [reflexivity|apply init_burst_dirs].
Qed.

Lemma check_keyboard_input_quit s : check_keyboard_input "q" s = (Ok Break, s, []).
Proof. reflexivity. Qed.

Lemma check_keyboard_input_step line s :
  line <> "q"%string ->
  exists s' o, check_keyboard_input line s = (Ok Continue, s', o) /\ Step s s' o.
Proof.
  intros Hq. unfold check_keyboard_input.
  destruct (String.eqb line "q") eqn:E; [apply String.eqb_eq in E; contradiction|].
  unfold dict_mem.
  destruct (dict_get String.eqb line key_mapping) as [v|] eqn:Hget.
  - apply dict_get_Some_keys_string in Hget.
    destruct (key_item_step line s Hget) as (s' & o & H & S).
    exists s', o. split; [|exact S].
    erewrite bind_run; [|exact H|reflexivity]. now rewrite app_nil_r.
  - exists s, []. split; [reflexivity|apply Step_refl].
Qed.

(** ** Whole turns and the loop *)

Lemma loop_body_step t s :
  ready s ->
  exists c s' o,
    loop_body t s = (Ok c, s', o) /\ Step s s' o /\
    (c = Break <-> user_input t = "q"%string).
Proof.
  intros Hr. unfold loop_body.
  destruct (check_gpio_inputs_step t s Hr) as (s1 & o1 & H1 & S1 & _).
  destruct (string_dec (user_input t) "q") as [E|E].
  - exists Break, s1, o1. split; [|split]; [|exact S1|tauto].
    erewrite bind_run; [|exact H1|rewrite E; apply check_keyboard_input_quit].
    now rewrite app_nil_r.
  - destruct (check_keyboard_input_step (user_input t) s1 E) as (s2 & o2 & H2 & S2).
    exists Continue, s2, (o1 ++ o2). split; [|split].
    + eapply bind_run; eassumption.
    + eapply Step_trans; eassumption.
    + split; [discriminate|contradiction].
Qed.

Lemma while_true_step ticks s :
  ready s ->
  exists b s' o, while_true ticks s = (Ok b, s', o) /\ Step s s' o.
Proof.
  revert s. induction ticks as [|t ticks IH]; intros s Hr.
  - exists false, s, []. split; [reflexivity|apply Step_refl].
  - destruct (loop_body_step t s Hr) as (c & s1 & o1 & H1 & S1 & _).
    destruct c.
    + destruct (IH s1) as (b & s2 & o2 & H2 & S2).
      { eapply Step_ready; eassumption. }
      exists b, s2, (o1 ++ o2). split.
      * simpl. eapply bind_run; eassumption.
      * eapply Step_trans; eassumption.
    + exists true, s1, o1. split; [|exact S1].
      simpl. erewrite bind_run; [|exact H1|reflexivity]. now rewrite app_nil_r.
Qed.

(** ** Start-up, clean-up and [main] *)

Lemma for_each_close_quiet (l : list (nat * Z)) s :
  res (for_each l (fun '(chip, _) => Chip_close chip) s) = Ok tt /\
  out (for_each l (fun '(chip, _) => Chip_close chip) s) = [].
Proof.
  revert s. induction l as [|[chip line] l IH]; intros s; [split; reflexivity|].
  simpl. rewrite (bind_quiet _ _ s tt _ eq_refl). apply IH.
Qed.

Lemma cleanup_quiet s : cleanup s = (Ok tt, st (cleanup s), []).
Proof.
  unfold cleanup. rewrite (bind_quiet _ _ s _ s eq_refl).
  destruct (for_each_close_quiet (dict_values (pin_mappings s)) s) as [Hr Ho].
  destruct (for_each _ _ s) as [[r s1] o1] eqn:E. unfold res, out in Hr, Ho.
  simpl in Hr, Ho. subst r o1.
  rewrite (bind_quiet _ _ s tt s1 E). reflexivity.
Qed.

(** Either every pin is found, and the reader holds one open chip per pin,
    which [cleanup] will close; or start-up fails with everything it had
    opened closed again. *)
Lemma GPIOReader_init_cases pf :
  (setup_ok pf /\
   exists s1,
     GPIOReader_init pf pin_numbers initial_state = (Ok tt, s1, []) /\
     dict_keys (pin_mappings s1) = pin_numbers /\
     initialized s1 = false /\
     (values s1 = neutral /\ first_input s1 = false) /\
     forall s, chips s = chips s1 -> pin_mappings s = pin_mappings s1 ->
               released (st (cleanup s)))
  \/
  (~ setup_ok pf /\
   exists s1,
     GPIOReader_init pf pin_numbers initial_state = (Raise RuntimeError, s1, []) /\
     released s1).
Proof.
  unfold GPIOReader_init, _setup_gpio, pin_numbers, try_except, bind, modify,
    _find_gpio_chip_and_line.
  cbn.
  destruct (gpiofind pf 16) as [[n0 o0]|] eqn:E0; cbn;
    [|right; split;
      [intros H; apply (H 16); [simpl; tauto|assumption]
      |eexists; split; [reflexivity|split; [reflexivity|repeat constructor]]]].
  destruct (gpiofind pf 13) as [[n1 o1]|] eqn:E1; cbn;
    [|right; split;
      [intros H; apply (H 13); [simpl; tauto|assumption]
      |eexists; split; [reflexivity|split; [reflexivity|repeat constructor]]]].
  destruct (gpiofind pf 18) as [[n2 o2]|] eqn:E2; cbn;
    [|right; split;
      [intros H; apply (H 18); [simpl; tauto|assumption]
      |eexists; split; [reflexivity|split; [reflexivity|repeat constructor]]]].
  destruct (gpiofind pf 11) as [[n3 o3]|] eqn:E3; cbn;
    [|right; split;
      [intros H; apply (H 11); [simpl; tauto|assumption]
      |eexists; split; [reflexivity|split; [reflexivity|repeat constructor]]]].
  destruct (gpiofind pf 32) as [[n4 o4]|] eqn:E4; cbn;
    [|right; split;
      [intros H; apply (H 32); [simpl; tauto|assumption]
      |eexists; split; [reflexivity|split; [reflexivity|repeat constructor]]]].
  destruct (gpiofind pf 38) as [[n5 o5]|] eqn:E5; cbn;
    [|right; split;
      [intros H; apply (H 38); [simpl; tauto|assumption]
      |eexists; split; [reflexivity|split; [reflexivity|repeat constructor]]]].
  left. split.
  - intros pin Hpin. simpl in Hpin.
    repeat (destruct Hpin as [<-|Hpin]; [congruence|]). contradiction.
  - eexists. split; [reflexivity|]. split; [reflexivity|]. split; [reflexivity|].
    split; [split; reflexivity|].
    intros [ch pm vals ini lst fi]. cbn. intros -> ->.
    split; [reflexivity|repeat constructor].
Qed.

Lemma loop_entry_ready pf :
  setup_ok pf ->
  ready (loop_entry pf) /\ initialized (loop_entry pf) = false /\
  forall s, chips s = chips (loop_entry pf) ->
            pin_mappings s = pin_mappings (loop_entry pf) ->
            released (st (cleanup s)).
Proof.
  intros Hok. unfold loop_entry.
  destruct (GPIOReader_init_cases pf) as [(_ & s1 & -> & Hk & Hi & _ & Hc)|(Hno & _)];
    [|contradiction].
  unfold st. cbn [fst snd]. split; [split|split].
  - exact Hk.
  - reflexivity.
  - exact Hi.
  - exact Hc.
Qed.

Lemma main_run pf ticks :
  setup_ok pf ->
  main pf ticks
  = match while_true ticks (loop_entry pf) with
    | (Ok false, s, o) => (Running, s, o)
    | (Ok true, s, o) => (Exited, st (cleanup s), o)
    | (Raise e, s, o) => (Failed e, st (cleanup s), o)
    end.
Proof.
  intros Hok. unfold main, with_GPIOReader, loop_entry.
  destruct (GPIOReader_init_cases pf) as [(_ & s1 & E & _)|(Hno & _)];
    [|contradiction].
  rewrite (bind_quiet _ _ _ _ _ E), E. unfold st at 1. cbn [fst snd].
  rewrite (bind_quiet _ _ s1 tt _ eq_refl).
  destruct (while_true ticks _) as [[[[]|e] s] o]; try reflexivity.
  - unfold GPIOReader_exit. rewrite (cleanup_quiet s). now rewrite app_nil_r.
  - unfold GPIOReader_exit. rewrite (cleanup_quiet s). now rewrite app_nil_r.
Qed.

Lemma main_setup_failed pf ticks :
  ~ setup_ok pf ->
  exists s1, main pf ticks = (Failed RuntimeError, s1, []) /\ released s1.
Proof.
  intros Hno. unfold main, with_GPIOReader.
  destruct (GPIOReader_init_cases pf) as [(Hok & _)|(_ & s1 & E & Hrel)];
    [contradiction|].
  exists s1. split; [|exact Hrel].
  rewrite (bind_raise _ _ _ _ _ _ E). reflexivity.
Qed.

Lemma setup_ok_dec pf : setup_ok pf \/ ~ setup_ok pf.
Proof.
  destruct (GPIOReader_init_cases pf) as [(Hok & _)|(Hno & _)]; auto.
Qed.

Lemma loop_entry_shape pf :
  setup_ok pf ->
  exists ch v0 v1 v2 v3 v4 v5,
    loop_entry pf
    = mkState ch [(16, v0); (13, v1); (18, v2); (11, v3); (32, v4); (38, v5)]
        neutral false
        [(16, 0); (13, 0); (18, 0); (11, 0); (32, 0); (38, 0)] false.
Proof.
  intros Hok. unfold loop_entry.
  destruct (GPIOReader_init_cases pf)
    as [(_ & s1 & -> & Hk & Hi & (Hv & Hf) & _)|(Hno & _)]; [|contradiction].
  unfold st. cbn [fst snd].
  destruct s1 as [ch pm vals ini lst fi]. cbn in Hk, Hi, Hv, Hf. subst.
  unfold pin_numbers in Hk. cbn in Hk.
  do 6 (destruct pm as [|[? ?] pm]; [discriminate|]; cbn in Hk; injection Hk as -> Hk).
  destruct pm; [|discriminate].
  eexists _, _, _, _, _, _, _. reflexivity.
Qed.

(** ** Lists *)

Lemma app_prefix_before {A} (P : A -> Prop) (a b pre : list A) f post :
  a ++ b = pre ++ f :: post ->
  Forall (fun x => ~ P x) a -> P f ->
  exists r, pre = a ++ r.
Proof.
  revert pre. induction a as [|x a IH]; intros pre E Ha Hf.
  - exists pre. reflexivity.
  - inversion Ha as [|? ? Hx Ha']; subst.
    destruct pre as [|y pre]; simpl in E; injection E as -> E.
    + contradiction.
    + destruct (IH pre E Ha' Hf) as [r ->]. exists r. reflexivity.
Qed.

(** What a run has sent, whatever the platform and the turns: the loop's
    output from a state whose flag is down, or nothing at all. *)
Lemma main_sent pf ticks :
  exists s' o,
    sent (main pf ticks) = o /\
    forallb direction_ok o = true /\
    (o = [] \/ (initialized (state_of (main pf ticks)) = true /\
                exists rest, o = init_burst ++ rest)) /\
    (setup_ok pf -> Step (loop_entry pf) s' o).
Proof.
  destruct (setup_ok_dec pf) as [Hok|Hno].
  - destruct (loop_entry_ready pf Hok) as (Hr & Hi & Hc).
    destruct (while_true_step ticks (loop_entry pf) Hr) as (b & s' & o & Hw & S).
    exists s', o. rewrite (main_run pf ticks Hok), Hw.
    assert (Hsent : sent (if b then (Exited, st (cleanup s'), o) else (Running, s', o)) = o)
      by (destruct b; reflexivity).
    split; [destruct b; reflexivity|].
    split; [exact (step_dirs _ _ _ S)|].
    split; [|intros _; exact S].
    destruct (step_first _ _ _ S Hi) as [[-> _]|[Hi' Hrest]]; [left; reflexivity|].
    right. split; [|exact Hrest].
    destruct b; unfold state_of; cbn [fst snd]; [|exact Hi'].
    destruct s' as [ch pm vals ini lst fi]. cbn in Hi'. subst ini.
    unfold cleanup, st, bind, gets.
    cbn [pin_mappings].
    destruct (for_each_close_quiet (dict_values pm) (mkState ch pm vals true lst fi)) as [Hq _].
    clear -pm.
    generalize (dict_values pm) as l.
    assert (G : forall (l : list (nat * Z)) ch0,
              initialized (snd (fst (for_each l (fun '(chip, _) => Chip_close chip)
                                       (mkState ch0 pm vals true lst fi)))) = true).
    { induction l as [|[c ln] l IH]; intros ch0; [reflexivity|].
      simpl. rewrite (bind_quiet _ _ _ tt _ eq_refl). apply IH. }
    intros l. specialize (G l ch).
    destruct (for_each l _ _) as [[[[]|e] s2] o2]; cbn in *; exact G.
  - destruct (main_setup_failed pf ticks Hno) as (s1 & E & _).
    exists s1, []. rewrite E. split; [reflexivity|]. split; [reflexivity|].
    split; [left; reflexivity|]. intros H. contradiction.
Qed.

Lemma init_burst_no_control_vector :
  Forall (fun m => ~ frame_command m = 105) init_burst.
Proof.
  apply Forall_forall. intros m Hm.
  assert (H : forallb (fun m => negb (frame_command m =? 105)) init_burst = true)
    by (vm_compute; reflexivity).
  rewrite forallb_forall in H. specialize (H m Hm).
  intros E. rewrite E in H. discriminate.
Qed.

(** ** Whole runs *)

(** C4: the initialization burst is the datagrams of 100 repetitions of
    {command 182 payload [2], command 182 payload [4]} followed by one
    {command 101, payload [0]}, 201 datagrams in all, and
    [send_initial_setup] sends exactly these, in order. In any run,
    whatever the platform and the turns, a datagram of command 105 is
    preceded by the whole burst: what was sent before it starts with the
    burst. *)
Theorem initial_burst_before_control_vectors
    (pf : Platform) (ticks : list Tick) (pre post : list (list byte)) (f : list byte) :
  sent (main pf ticks) = pre ++ f :: post ->
  frame_command f = 105 ->
  init_calls
    = List.concat (repeat [(">"%string, 182, [x02]); (">"%string, 182, [x04])] 100)
      ++ [(">"%string, 101, [x00])] /\
  Forall2 encodes init_calls init_burst /\
  List.length init_burst = 201%nat /\
  (forall s, send_initial_setup s = (Ok tt, s, init_burst)) /\
  exists rest, pre = init_burst ++ rest.
Proof.
  intros Hsent Hf.
  split; [reflexivity|]. split; [exact init_burst_encodes|].
  split; [reflexivity|]. split; [exact send_initial_setup_run|].
  destruct (main_sent pf ticks) as (s' & o & Ho & _ & [->|(_ & rest & ->)] & _).
  - rewrite Hsent in Ho. destruct pre; discriminate.
  - rewrite Hsent in Ho. symmetry in Ho.
    apply (app_prefix_before (fun m => frame_command m = 105) _ _ _ _ _ Ho).
    + exact init_burst_no_control_vector.
    + exact Hf.
Qed.

(** C9: in any run every datagram sent carries command 182 or 101 with
    direction '>' or command 105 with direction '<'; so do the datagrams of
    the initialization burst and of the command burst of every key. *)
Theorem directions_of_commands (pf : Platform) (ticks : list Tick) :
  Forall (fun m =>
            ((frame_command m = 182 \/ frame_command m = 101) /\
             frame_direction m = ">"%byte)
            \/ (frame_command m = 105 /\ frame_direction m = "<"%byte))
         (sent (main pf ticks)) /\
  forallb direction_ok init_burst = true /\
  Forall (fun key => forallb direction_ok (key_burst key) = true) (dict_keys key_mapping) /\
  Forall (fun pin => forallb direction_ok (pin_burst pin) = true) pin_numbers.
Proof.
  split; [|split; [exact init_burst_dirs|split]].
  - destruct (main_sent pf ticks) as (s' & o & -> & Hd & _).
    apply Forall_forall. intros m Hm.
    rewrite forallb_forall in Hd. specialize (Hd m Hm).
    unfold direction_ok in Hd.
    apply orb_true_iff in Hd. destruct Hd as [Hd|Hd];
      apply andb_true_iff in Hd; destruct Hd as [Hc Hdir].
    + left. split.
      * apply orb_true_iff in Hc. destruct Hc as [Hc|Hc]; apply Z.eqb_eq in Hc; auto.
      * apply Byte.byte_dec_bl in Hdir. exact Hdir.
    + right. split; [now apply Z.eqb_eq|].
      apply Byte.byte_dec_bl in Hdir. exact Hdir.
  - apply Forall_forall. intros key. apply key_burst_dirs.
  - apply Forall_forall. intros pin. apply pin_burst_dirs.
Qed.

Lemma initial_burst_before_control_vectors_witness :
  sent (main demo_platform [turn [] "w"])
  = (init_burst ++ [frame ">" 182 [x00]; frame ">" 182 [x02]])
    ++ frame "<" 105 (packed ([1500; 2000; 1500; 1500] ++ repeat 1500 12))
    :: [frame "<" 105 (packed neutral); frame ">" 182 [x04]] /\
  frame_command (frame "<" 105 (packed ([1500; 2000; 1500; 1500] ++ repeat 1500 12))) = 105 /\
  exists rest, init_burst ++ [frame ">" 182 [x00]; frame ">" 182 [x02]] = init_burst ++ rest.
Proof.
  assert (Hs : sent (main demo_platform [turn [] "w"])
               = (init_burst ++ [frame ">" 182 [x00]; frame ">" 182 [x02]])
                 ++ frame "<" 105 (packed ([1500; 2000; 1500; 1500] ++ repeat 1500 12))
                 :: [frame "<" 105 (packed neutral); frame ">" 182 [x04]])
    by (vm_compute; reflexivity).
  assert (Hc : frame_command (frame "<" 105 (packed ([1500; 2000; 1500; 1500] ++ repeat 1500 12))) = 105)
    by (vm_compute; reflexivity).
  split; [exact Hs|]. split; [exact Hc|].
  exact (proj2 (proj2 (proj2 (proj2
    (initial_burst_before_control_vectors demo_platform [turn [] "w"] _ _ _ Hs Hc))))).
Defined.

(** The loop up to and including a turn on which 'q' is typed. *)
Lemma while_true_quit (pre post : list Tick) (t : Tick) s :
  ready s -> user_input t = "q"%string ->
  exists s' o,
    while_true (pre ++ t :: post) s = (Ok true, s', o) /\
    while_true (pre ++ [t]) s = (Ok true, s', o) /\
    out (while_true (pre ++ [{| levels := levels t; user_input := "" |}]) s) = o /\
    Step s s' o.
Proof.
  intros Hr Hq. revert s Hr.
  induction pre as [|a pre IH]; intros s Hr.
  - destruct (check_gpio_inputs_step t s Hr) as (s1 & o1 & H1 & S1 & _).
    assert (Hb : loop_body t s = (Ok Break, s1, o1)).
    { unfold loop_body.
      erewrite bind_run; [|exact H1|rewrite Hq; apply check_keyboard_input_quit].
      now rewrite app_nil_r. }
    exists s1, o1. simpl.
    split; [|split; [|split]].
    + erewrite bind_run; [|exact Hb|reflexivity]. now rewrite app_nil_r.
    + erewrite bind_run; [|exact Hb|reflexivity]. now rewrite app_nil_r.
    + assert (Hc : loop_body {| levels := levels t; user_input := "" |} s
                   = (Ok Continue, s1, o1)).
      { unfold loop_body.
        change (check_gpio_inputs {| levels := levels t; user_input := "" |})
          with (check_gpio_inputs t).
        erewrite bind_run; [|exact H1|reflexivity]. now rewrite app_nil_r. }
      erewrite bind_run; [|exact Hc|reflexivity].
      unfold out. cbn [snd]. now rewrite app_nil_r.
    + exact S1.
  - destruct (loop_body_step a s Hr) as (c & s1 & o1 & H1 & S1 & _).
    destruct c.
    + destruct (IH s1) as (s2 & o2 & E1 & E2 & E3 & S2).
      { eapply Step_ready; eassumption. }
      exists s2, (o1 ++ o2). simpl.
      split; [|split; [|split]].
      * eapply bind_run; eassumption.
      * eapply bind_run; eassumption.
      * destruct (while_true (pre ++ [{| levels := levels t; user_input := "" |}]) s1)
          as [[r3 s3] o3] eqn:E.
        erewrite bind_run; [|exact H1|exact E].
        unfold out in *. cbn [snd] in *. now subst o3.
      * eapply Step_trans; eassumption.
    + exists s1, o1. simpl.
      split; [|split; [|split]].
      * erewrite bind_run; [|exact H1|reflexivity]. now rewrite app_nil_r.
      * erewrite bind_run; [|exact H1|reflexivity]. now rewrite app_nil_r.
      * erewrite bind_run; [|exact H1|reflexivity]. unfold out. cbn [snd].
        now rewrite app_nil_r.
      * exact S1.
Qed.

(** C7: on a platform where start-up succeeded, let 'q' be typed on some
    turn [t], after any turns [pre] and before any turns [post]. Then the
    run has left the loop by [break] ([Exited], no exception); the turns
    after [t] change nothing; the datagrams sent by the whole run are those
    sent by the time the line of turn [t] is read, that is, by a run over
    [pre] and the pin half of [t] alone; and on this exit every chip is
    closed and the reader's pin table is empty. *)
Theorem quit_stops_the_loop (pf : Platform) (pre post : list Tick) (t : Tick) :
  setup_ok pf ->
  user_input t = "q"%string ->
  status_of (main pf (pre ++ t :: post)) = Exited /\
  main pf (pre ++ t :: post) = main pf (pre ++ [t]) /\
  sent (main pf (pre ++ t :: post))
    = sent (main pf (pre ++ [{| levels := levels t; user_input := "" |}])) /\
  released (state_of (main pf (pre ++ t :: post))).
Proof.
  intros Hok Hq.
  destruct (loop_entry_ready pf Hok) as (Hr & _ & Hc).
  destruct (while_true_quit pre post t (loop_entry pf) Hr Hq)
    as (s' & o & E1 & E2 & E3 & S).
  rewrite !(main_run pf _ Hok), E1, E2.
  split; [reflexivity|]. split; [reflexivity|]. split.
  - destruct (while_true (pre ++ [{| levels := levels t; user_input := "" |}])
                (loop_entry pf)) as [[[[]|e] s3] o3];
      unfold out in E3; cbn [snd] in E3; subst o3; reflexivity.
  - unfold state_of. cbn [fst snd]. apply Hc.
    + exact (step_chips _ _ _ S).
    + exact (step_pins _ _ _ S).
Qed.

Lemma demo_platform_ok : setup_ok demo_platform.
Proof. intros pin _. discriminate. Qed.

Lemma quit_stops_the_loop_witness :
  setup_ok demo_platform /\
  user_input (turn [38] "q") = "q"%string /\
  status_of (main demo_platform ([turn [16] ""; turn [] "s"] ++ turn [38] "q" :: [turn [] "w"]))
    = Exited /\
  main demo_platform ([turn [16] ""; turn [] "s"] ++ turn [38] "q" :: [turn [] "w"])
    = main demo_platform ([turn [16] ""; turn [] "s"] ++ [turn [38] "q"]) /\
  sent (main demo_platform ([turn [16] ""; turn [] "s"] ++ turn [38] "q" :: [turn [] "w"]))
    = sent (main demo_platform
              ([turn [16] ""; turn [] "s"]
               ++ [{| levels := levels (turn [38] "q"); user_input := "" |}])) /\
  released (state_of (main demo_platform
                        ([turn [16] ""; turn [] "s"] ++ turn [38] "q" :: [turn [] "w"]))).
Proof.
  split; [exact demo_platform_ok|]. split; [reflexivity|].
  exact (quit_stops_the_loop demo_platform [turn [16] ""; turn [] "s"] [turn [] "w"]
           (turn [38] "q") demo_platform_ok eq_refl).
Defined.




(** C6: the command burst of 'w', from the keyboard or from PIN_16, is
    five datagrams of which the third has command 105 and a 32-byte payload;
    read as 16 little-endian unsigned 16-bit values this payload is
    [1500, 2000, 1500, 1500] followed by twelve 1500s, and it is the packing
    of exactly that vector. The burst is all that is sent for the key, after
    the initialization burst when that is due. *)
Theorem burst_of_w_carries_its_vector :
  exists f1 f2 f3 f4 f5 : list byte,
    key_burst "w" = [f1; f2; f3; f4; f5] /\
    pin_burst 16 = [f1; f2; f3; f4; f5] /\
    (forall s, out (key_item "w" s)
               = (if initialized s then [] else init_burst) ++ [f1; f2; f3; f4; f5]) /\
    (forall s, out (gpio_pressed 16 s)
               = (if first_input s || negb (initialized s) then init_burst else [])
                 ++ [f1; f2; f3; f4; f5]) /\
    frame_command f3 = 105 /\
    List.length (frame_payload f3) = 32%nat /\
    unpack_le_H (frame_payload f3) = [1500; 2000; 1500; 1500] ++ repeat 1500 12 /\
    struct_pack_le_H ([1500; 2000; 1500; 1500] ++ repeat 1500 12) = Ok (frame_payload f3) /\
    encodes ("<"%string, 105, frame_payload f3) f3.
Proof.
  eexists _, _, _, _, _.
  split; [vm_compute; reflexivity|].
  split; [vm_compute; reflexivity|].
  split.
  { intros [ch pm vals ini lst fi].
    rewrite (key_item_run "w" ch pm vals ini lst fi) by (simpl; tauto).
    reflexivity. }
  split.
  { intros [ch pm vals ini lst fi].
    rewrite (gpio_pressed_run 16 ch pm vals ini lst fi) by (simpl; tauto).
    reflexivity. }
  repeat split; vm_compute; reflexivity.
Qed.

(** C10: the table gives 'a' and 'd' the same vector [2000, 1500, 1500,
    1500]; hence typing 'a' and typing 'd' do the same from every state,
    pressing PIN_13 ('a') and PIN_11 ('d') do the same from every state, and
    the command bursts of the two keys are the same datagrams. *)
Theorem a_and_d_are_the_same_command :
  dict_get String.eqb "a"%string key_mapping = Some [2000; 1500; 1500; 1500] /\
  dict_get String.eqb "d"%string key_mapping = Some [2000; 1500; 1500; 1500] /\
  key_burst "a" = key_burst "d" /\
  pin_burst 13 = key_burst "a" /\ pin_burst 11 = key_burst "d" /\
  List.length (key_burst "a") = 5%nat /\
  (forall s, check_keyboard_input "a" s = check_keyboard_input "d" s) /\
  (forall s, out (check_keyboard_input "a" s)
             = (if initialized s then [] else init_burst) ++ key_burst "a") /\
  (forall s, gpio_pressed 13 s = gpio_pressed 11 s) /\
  (forall s, out (gpio_pressed 13 s)
             = (if first_input s || negb (initialized s) then init_burst else [])
               ++ key_burst "a").
Proof.
  split; [reflexivity|]. split; [reflexivity|]. split; [reflexivity|].
  split; [reflexivity|]. split; [reflexivity|]. split; [reflexivity|].
  assert (Ha : In "a"%string (dict_keys key_mapping)) by (simpl; tauto).
  assert (Hd : In "d"%string (dict_keys key_mapping)) by (simpl; tauto).
  assert (K : forall key s, In key (dict_keys key_mapping) -> key <> "q"%string ->
              dict_mem String.eqb key key_mapping = true ->
              check_keyboard_input key s
              = (Ok Continue, mkState (chips s) (pin_mappings s) neutral true
                                (last_gpio_states s) (first_input s),
                 (if initialized s then [] else init_burst) ++ key_burst key)).
  { intros key [ch pm vals ini lst fi] Hk Hq Hm. unfold check_keyboard_input.
    destruct (String.eqb key "q") eqn:E; [apply String.eqb_eq in E; contradiction|].
    rewrite Hm.
    erewrite bind_run; [|apply key_item_run; exact Hk|reflexivity].
    now rewrite app_nil_r. }
  split; [|split; [|split]].
  - intros s. rewrite (K "a"%string s Ha), (K "d"%string s Hd);
      try reflexivity; discriminate.
  - intros s. rewrite (K "a"%string s Ha); try reflexivity; discriminate.
  - intros [ch pm vals ini lst fi].
    rewrite (gpio_pressed_run 13), (gpio_pressed_run 11) by (simpl; tauto).
    reflexivity.
  - intros [ch pm vals ini lst fi].
    rewrite (gpio_pressed_run 13) by (simpl; tauto). reflexivity.
Qed.

(** ** Turns that start with the flag set

    Such a turn sends the command burst of every accepted event and nothing
    else, and ends with the flag set and the sticks neutral. *)
Lemma for_each_items_initialized (items : dict Z Z) s :
  ready s -> incl (dict_keys items) pin_numbers ->
  initialized s = true -> first_input s = false ->
  exists s',
    for_each items (fun '(pin, state) => gpio_item pin state) s
    = (Ok tt, s', List.concat (map pin_burst (accepted_pins (last_gpio_states s) items))) /\
    ready s' /\ initialized s' = true /\ first_input s' = false /\
    last_gpio_states s' = last_gpio_states s.
Proof.
  revert s. induction items as [|[pin state] items IH]; intros s Hr Hin Hi Hf.
  - exists s. repeat split; try assumption; try apply Hr.
  - assert (Hpin : In pin pin_numbers) by (apply Hin; left; reflexivity).
    assert (Hin' : incl (dict_keys items) pin_numbers)
      by (intros k Hk; apply Hin; right; exact Hk).
    unfold accepted_pins. cbn [filter].
    destruct (gpio_item_run pin state s Hr Hpin) as [(H1 & H2 & E)|(Hn & E)].
    + cbn [rising]. subst state. rewrite H2.
      cbn [Z.eqb Pos.eqb andb map List.concat fst].
      destruct s as [ch pm vals ini lst fi]. cbn in Hi, Hf. subst ini fi.
      rewrite (gpio_pressed_run pin ch pm vals true lst false Hpin) in E.
      cbn [orb negb app] in E. cbn [last_gpio_states] in *.
      destruct (IH (mkState ch pm neutral true lst false))
        as (s' & E' & Hr' & Hi' & Hf' & Hl'); try reflexivity; try assumption.
      exists s'. repeat split; try assumption; try apply Hr'.
      cbn [for_each]. eapply bind_run; [exact E|exact E'].
    + assert (Er : rising (last_gpio_states s) (pin, state) = false).
      { cbn [rising]. destruct (state =? 1) eqn:E1; [|reflexivity].
        apply Z.eqb_eq in E1. cbn [andb].
        destruct (dict_get Z.eqb pin (last_gpio_states s)) as [l|] eqn:E2; [|reflexivity].
        destruct (l =? 0) eqn:E3; [|reflexivity].
        apply Z.eqb_eq in E3. subst l. contradiction Hn. auto. }
      rewrite Er.
      destruct (IH s Hr Hin' Hi Hf) as (s' & E' & Hr' & Hi' & Hf' & Hl').
      exists s'. repeat split; try assumption; try apply Hr'.
      cbn [for_each]. rewrite (bind_quiet _ _ _ _ _ E). exact E'.
Qed.

(** A turn that starts with the flag set sends one command burst for each
    rising pin, in the order of the pins, then one for the key typed, if it
    is in the table, and nothing else. *)
Lemma initialized_turn t s :
  ready s -> initialized s = true ->
  out (loop_body t s)
  = List.concat
      (map pin_burst
         (accepted_pins (last_gpio_states s)
            (map (fun pin => (pin, levels t pin)) pin_numbers)))
    ++ key_burst (user_input t) /\
  initialized (st (loop_body t s)) = true.
Proof.
  intros Hr Hi. unfold loop_body, check_gpio_inputs.
  set (gpio_states := map (fun pin => (pin, levels t pin)) pin_numbers).
  destruct (for_each_items_initialized gpio_states (set_first_input false s))
    as (s1 & E1 & Hr1 & Hi1 & Hf1 & Hl1).
  { destruct Hr. split; assumption. }
  { apply incl_refl. }
  { exact Hi. }
  { reflexivity. }
  cbn [last_gpio_states set_first_input] in E1.
  set (s2 := set_last_gpio_states gpio_states s1).
  assert (Hg : (gpio_states <- read_all pin_numbers (levels t);;
                modify (set_first_input false);;
                for_each gpio_states (fun '(pin, state) => gpio_item pin state);;
                modify (set_last_gpio_states gpio_states)) s
               = (Ok tt, s2,
                  List.concat (map pin_burst (accepted_pins (last_gpio_states s) gpio_states)))).
  { rewrite (bind_quiet _ _ _ _ _ (read_all_run (levels t) s Hr)).
    fold gpio_states.
    rewrite (bind_quiet _ _ _ _ (set_first_input false s) eq_refl).
    erewrite bind_run; [|exact E1|reflexivity]. now rewrite app_nil_r. }
  assert (Hi2 : initialized s2 = true) by exact Hi1.
  destruct (string_dec (user_input t) "q") as [Eq|Eq].
  - erewrite bind_run; [|exact Hg|rewrite Eq; apply check_keyboard_input_quit].
    rewrite Eq. split; [reflexivity|exact Hi2].
  - unfold check_keyboard_input.
    destruct (String.eqb (user_input t) "q") eqn:E;
      [apply String.eqb_eq in E; contradiction|].
    unfold dict_mem, key_burst.
    destruct (dict_get String.eqb (user_input t) key_mapping) as [v|] eqn:Hget.
    + pose proof (dict_get_Some_keys_string _ _ _ Hget) as Hk.
      destruct s2 as [ch pm vals ini lst fi] eqn:Es2. cbn in Hi2. subst ini.
      erewrite bind_run; [|exact Hg|].
      2:{ erewrite bind_run; [|apply key_item_run; exact Hk|reflexivity]. reflexivity. }
      unfold out, st. cbn [fst snd initialized]. unfold key_burst. rewrite Hget.
      split; [now rewrite app_nil_r|reflexivity].
    + erewrite bind_run; [|exact Hg|reflexivity].
      split; [reflexivity|exact Hi2].
Qed.

(** ** Two rising edges in the turn that initializes

    [first_input] is cleared once per turn (line 153), not once per pin: it
    is still set when a second pin of the same turn is served, although
    [initialized] is set by then, and line 168 tests [first_input]. The
    keyboard half tests [initialized] itself (line 201). *)

(** C2: in the first turn of a run let PIN_16 and PIN_13 rise together.
    PIN_16 is served first and sets the flag. PIN_13 is then served with
    the flag set, and 206 datagrams are sent for it, the whole
    initialization burst and then its command burst, where the claim has
    exactly 5. *)
Theorem second_pin_of_the_initializing_turn :
  let s0 := set_first_input false (loop_entry demo_platform) in
  let s1 := st (gpio_item 16 1 s0) in
  initialized s0 = false /\
  initialized s1 = true /\
  first_input s1 = true /\
  out (gpio_item 13 1 s1) = init_burst ++ pin_burst 13 /\
  List.length (out (gpio_item 13 1 s1)) = 206%nat /\
  List.length (pin_burst 13) = 5%nat /\
  sent (main demo_platform [turn [16; 13] ""])
    = out (gpio_item 16 1 s0) ++ out (gpio_item 13 1 s1).
Proof.
  cbv zeta. repeat split; vm_compute; reflexivity.
Qed.

(** C3: in that run the initialization burst is sent twice: the turn sends
    the burst, the command burst of 'w', the burst again, and the command
    burst of 'a'; the one-shot frame of command 101 goes out twice. *)
Theorem initial_burst_sent_twice :
  sent (main demo_platform [turn [16; 13] ""])
    = init_burst ++ pin_burst 16 ++ init_burst ++ pin_burst 13 /\
  List.length (filter (fun m => frame_command m =? 101)
                 (sent (main demo_platform [turn [16; 13] ""]))) = 2%nat /\
  List.length (sent (main demo_platform [turn [16; 13] ""])) = 412%nat /\
  initialized (state_of (main demo_platform [turn [16; 13] ""])) = true.
Proof.
  repeat split; vm_compute; reflexivity.
Qed.

(** C8: let PIN_16 and PIN_13 rise in the first turn, all pins fall in the
    second, and PIN_13 rise again in the third. Both edges of PIN_13 are
    served with the flag set; the first is answered by the initialization
    burst and the command burst of 'a', the second by the command burst
    alone. *)
Theorem same_event_two_answers :
  let ticks := [turn [16; 13] ""; turn [] ""; turn [13] ""] in
  sent_in_turn demo_platform ticks 0
    = (init_burst ++ pin_burst 16) ++ (init_burst ++ pin_burst 13) /\
  sent_in_turn demo_platform ticks 1 = [] /\
  sent_in_turn demo_platform ticks 2 = pin_burst 13 /\
  init_burst ++ pin_burst 13 <> pin_burst 13.
Proof.
  cbv zeta. split; [vm_compute; reflexivity|].
  split; [vm_compute; reflexivity|].
  split; [vm_compute; reflexivity|].
  intros E. apply (f_equal (@List.length _)) in E. vm_compute in E. discriminate.
Qed.

(** * Further properties of the code *)

(** ** The codec outside and inside its domain *)

Lemma byte_of_int_None (n : Z) : ~ 0 <= n <= 255 -> byte_of_int n = None.
Proof.
  intros Hn. unfold byte_of_int.
  destruct (0 <=? n) eqn:E; [|reflexivity].
  apply Z.leb_le in E. apply Byte.of_N_None_iff. lia.
Qed.

Lemma bytes_singleton_rejects (n : Z) : ~ 0 <= n <= 255 -> bytes [n] = Raise ValueError.
Proof. intros Hn. simpl. now rewrite (byte_of_int_None n Hn). Qed.

(** The shape of the message for any direction string. *)
Lemma msp_message_shape (direction : string) (command_id : Z) (payload : list byte) :
  0 <= command_id <= 255 ->
  (List.length payload <= 255)%nat ->
  exists bsize bcmd bsum : byte,
    msp_message direction command_id payload
    = Ok (encode_utf8 ("$M" ++ direction) ++ [bsize] ++ [bcmd] ++ payload ++ [bsum]) /\
    int_of_byte bsize = Z.of_nat (List.length payload) /\
    int_of_byte bcmd = command_id /\
    int_of_byte bsum
    = xor_fold (Z.of_nat (List.length payload) :: command_id :: map int_of_byte payload).
Proof.
  intros Hcmd Hlen.
  set (size := Z.of_nat (List.length payload)).
  assert (Hsize : 0 <= size <= 255) by (unfold size; lia).
  destruct (bytes_singleton size Hsize) as (bsize & Esize & Hbsize).
  destruct (bytes_singleton command_id Hcmd) as (bcmd & Ecmd & Hbcmd).
  destruct (checksum_loop payload (Z.lxor size command_id)) as [Hr Hx].
  { apply lxor_below_256; assumption. }
  destruct (bytes_singleton _ Hr) as (bsum & Esum & Hbsum).
  exists bsize, bcmd, bsum.
  split; [|split; [exact Hbsize|split; [exact Hbcmd|]]].
  - unfold msp_message. fold size. rewrite Esize, Ecmd, Esum. reflexivity.
  - rewrite Hbsum, xor_fold_frame. exact Hx.
Qed.

Lemma msp_message_cases (direction : string) (command_id : Z) (payload : list byte) :
  ((0 <= command_id <= 255 /\ (List.length payload <= 255)%nat) /\
   exists message, msp_message direction command_id payload = Ok message)
  \/
  (~ (0 <= command_id <= 255 /\ (List.length payload <= 255)%nat) /\
   msp_message direction command_id payload = Raise ValueError).
Proof.
  assert (Hsize : ~ (List.length payload <= 255)%nat ->
                  msp_message direction command_id payload = Raise ValueError).
  { intros H. unfold msp_message. rewrite bytes_singleton_rejects by lia. reflexivity. }
  assert (Hcmd : ~ 0 <= command_id <= 255 ->
                 msp_message direction command_id payload = Raise ValueError).
  { intros H. unfold msp_message.
    destruct (bytes [Z.of_nat (List.length payload)]) as [bs|e] eqn:Es.
    - rewrite bytes_singleton_rejects by exact H. reflexivity.
    - simpl in Es. destruct (byte_of_int _); [discriminate|].
      injection Es as <-. reflexivity. }
  destruct (Z_le_dec 0 command_id) as [H0|H0];
    [destruct (Z_le_dec command_id 255) as [H1|H1]|];
    [destruct (le_dec (List.length payload) 255) as [H2|H2]| |].
  - left. split; [split; [lia|exact H2]|].
    destruct (msp_message_shape direction command_id payload) as (b1 & b2 & b3 & E & _);
      [lia|exact H2|].
    eexists. exact E.
  - right. split; [intros [_ H]; contradiction|]. apply Hsize. exact H2.
  - right. split; [intros [H _]; lia|]. apply Hcmd. lia.
  - right. split; [intros [H _]; lia|]. apply Hcmd. lia.
Qed.

(** X1: the message of [send_msp_message] (lines 67-74) can be built
    exactly when the command id is a byte and the payload has at most 255
    bytes, for every direction that has a UTF-8 encoding. Otherwise
    [bytes([size])] or [bytes([cmd])] raises ValueError, before any socket
    is opened: the call raises ValueError, sends nothing and changes
    nothing. *)
Theorem frame_construction_domain
    (direction : string) (command_id : Z) (payload : list byte) (s : State) :
  ((0 <= command_id <= 255 /\ (List.length payload <= 255)%nat) /\
   exists message, msp_message direction command_id payload = Ok message)
  \/
  (~ (0 <= command_id <= 255 /\ (List.length payload <= 255)%nat) /\
   msp_message direction command_id payload = Raise ValueError /\
   send_msp_message direction command_id payload s = (Raise ValueError, s, [])).
Proof.
  destruct (msp_message_cases direction command_id payload) as [(H & m & E)|(H & E)].
  - left. split; [exact H|]. exists m. exact E.
  - right. split; [exact H|]. split; [exact E|].
    unfold send_msp_message, bind, lift. rewrite E. reflexivity.
Qed.

Lemma xor_fold_snoc (l : list Z) (x : Z) : xor_fold (l ++ [x]) = Z.lxor (xor_fold l) x.
Proof. unfold xor_fold. rewrite fold_left_app. reflexivity. Qed.

(** X2: a receiver that reads a datagram of [send_msp_message] by position
    gets back what was sent: the direction byte, the command id and the
    payload (taken with the length the size byte gives); and the XOR of
    every byte after the three header bytes, checksum included, is 0. *)
Theorem frame_decodes_to_its_call
    (c : ascii) (command_id : Z) (payload message : list byte) :
  (nat_of_ascii c < 128)%nat ->
  msp_message (String c EmptyString) command_id payload = Ok message ->
  frame_direction message = byte_of_ascii c /\
  frame_command message = command_id /\
  frame_payload message = payload /\
  xor_fold (map int_of_byte (skipn 3 message)) = 0.
Proof.
  intros _ E.
  destruct (msp_message_cases (String c EmptyString) command_id payload)
    as [((Hc & Hl) & _)|(_ & E')]; [|congruence].
  destruct (msp_message_shape (String c EmptyString) command_id payload Hc Hl)
    as (b1 & b2 & b3 & E1 & H1 & H2 & H3).
  rewrite E in E1. injection E1 as ->.
  cbn [encode_utf8 list_byte_of_string map list_ascii_of_string String.append app].
  unfold frame_direction, frame_command, frame_payload.
  cbn [nth skipn].
  split; [reflexivity|]. split; [exact H2|]. split.
  - rewrite H1, Nat2Z.id, firstn_app, Nat.sub_diag, firstn_all. cbn [firstn].
    apply app_nil_r.
  - change (b1 :: b2 :: payload ++ [b3]) with ([b1; b2] ++ payload ++ [b3]).
    rewrite app_assoc, map_app. cbn [map]. rewrite xor_fold_snoc, map_app.
    cbn [map app]. rewrite H1, H2, H3. apply Z.lxor_nilpotent.
Qed.

Lemma frame_decodes_to_its_call_witness :
  (nat_of_ascii "<" < 128)%nat /\
  msp_message "<" 105 [x01; xff; x10]
    = Ok ["$"%byte; "M"%byte; "<"%byte; x03; x69; x01; xff; x10; x84] /\
  frame_direction ["$"%byte; "M"%byte; "<"%byte; x03; x69; x01; xff; x10; x84]
    = byte_of_ascii "<" /\
  frame_command ["$"%byte; "M"%byte; "<"%byte; x03; x69; x01; xff; x10; x84] = 105 /\
  frame_payload ["$"%byte; "M"%byte; "<"%byte; x03; x69; x01; xff; x10; x84]
    = [x01; xff; x10] /\
  xor_fold (map int_of_byte
              (skipn 3 ["$"%byte; "M"%byte; "<"%byte; x03; x69; x01; xff; x10; x84])) = 0.
Proof.
  assert (H1 : (nat_of_ascii "<" < 128)%nat) by (apply Nat.ltb_lt; reflexivity).
  assert (H2 : msp_message "<" 105 [x01; xff; x10]
               = Ok ["$"%byte; "M"%byte; "<"%byte; x03; x69; x01; xff; x10; x84])
    by reflexivity.
  split; [exact H1|]. split; [exact H2|].
  exact (frame_decodes_to_its_call "<"%char 105 [x01; xff; x10] _ H1 H2).
Defined.

(** X3: two calls with one-character directions that put the same datagram
    on the wire are the same call: same direction, same command id, same
    payload. *)
Theorem equal_frames_equal_calls
    (c c' : ascii) (command_id command_id' : Z) (payload payload' message : list byte) :
  msp_message (String c EmptyString) command_id payload = Ok message ->
  msp_message (String c' EmptyString) command_id' payload' = Ok message ->
  c = c' /\ command_id = command_id' /\ payload = payload'.
Proof.
  intros E E'.
  destruct (msp_message_cases (String c EmptyString) command_id payload)
    as [((Hc & Hl) & _)|(_ & F)]; [|congruence].
  destruct (msp_message_cases (String c' EmptyString) command_id' payload')
    as [((Hc' & Hl') & _)|(_ & F)]; [|congruence].
  destruct (msp_message_shape (String c EmptyString) command_id payload Hc Hl)
    as (b1 & b2 & b3 & E1 & _ & H2 & _).
  destruct (msp_message_shape (String c' EmptyString) command_id' payload' Hc' Hl')
    as (b1' & b2' & b3' & E1' & _ & H2' & _).
  rewrite E in E1. rewrite E' in E1'. injection E1 as ->.
  cbn [encode_utf8 list_byte_of_string map list_ascii_of_string String.append app] in E1'.
  injection E1' as Hd Hs Hcmd Hp.
  apply app_inj_tail in Hp. destruct Hp as [Hp _].
  split; [|split].
  - rewrite <- (ascii_of_byte_of_ascii c), <- (ascii_of_byte_of_ascii c'). now rewrite Hd.
  - rewrite <- H2, <- H2'. now rewrite Hcmd.
  - exact Hp.
Qed.

Lemma equal_frames_equal_calls_witness :
  msp_message ">" 182 [x02] = Ok ["$"%byte; "M"%byte; ">"%byte; x01; xb6; x02; xb5] /\
  msp_message ">" 182 [x02] = Ok ["$"%byte; "M"%byte; ">"%byte; x01; xb6; x02; xb5] /\
  ">"%char = ">"%char /\ 182 = 182 /\ [x02] = [x02].
Proof.
  assert (H : msp_message ">" 182 [x02]
              = Ok ["$"%byte; "M"%byte; ">"%byte; x01; xb6; x02; xb5]) by reflexivity.
  split; [exact H|]. split; [exact H|].
  exact (equal_frames_equal_calls ">"%char ">"%char 182 182 [x02] [x02] _ H H).
Defined.

(** ** Packing the control vector *)

Lemma pack_H_run (v : Z) :
  0 <= v <= 65535 ->
  exists lo hi, pack_H v = Ok [lo; hi] /\ int_of_byte lo + 256 * int_of_byte hi = v.
Proof.
  intros Hv. unfold pack_H.
  replace ((0 <=? v) && (v <=? 65535)) with true
    by (symmetry; apply andb_true_iff; split; apply Z.leb_le; lia).
  assert (Hlo : Z.land v 255 = v mod 256).
  { change 255 with (Z.ones 8). rewrite Z.land_ones by lia. reflexivity. }
  assert (Hhi : Z.shiftr v 8 = v / 256).
  { rewrite Z.shiftr_div_pow2 by lia. reflexivity. }
  rewrite Hlo, Hhi.
  destruct (byte_of_int_Some (v mod 256)) as (lo & -> & Elo).
  { pose proof (Z.mod_pos_bound v 256). lia. }
  destruct (byte_of_int_Some (v / 256)) as (hi & -> & Ehi).
  { split; [apply Z.div_pos; lia|].
    assert (v / 256 < 256) by (apply Z.div_lt_upper_bound; lia). lia. }
  exists lo, hi. split; [reflexivity|].
  rewrite Elo, Ehi. pose proof (Z.div_mod v 256). lia.
Qed.

Lemma pack_H_rejects (v : Z) : ~ 0 <= v <= 65535 -> pack_H v = Raise StructError.
Proof.
  intros Hv. unfold pack_H.
  destruct ((0 <=? v) && (v <=? 65535)) eqn:E; [|reflexivity].
  apply andb_true_iff in E. destruct E as [E1 E2].
  apply Z.leb_le in E1, E2. lia.
Qed.

(** X4: [struct.pack("<nH", *values)] succeeds exactly when every value is
    in 0..65535. It then gives two bytes per value, and reading the bytes
    back as little-endian 16-bit integers gives the values again; otherwise
    it raises struct.error. *)
Theorem struct_pack_round_trip (vs : list Z) :
  (Forall (fun v => 0 <= v <= 65535) vs /\
   exists payload,
     struct_pack_le_H vs = Ok payload /\
     List.length payload = (2 * List.length vs)%nat /\
     unpack_le_H payload = vs)
  \/
  (~ Forall (fun v => 0 <= v <= 65535) vs /\
   struct_pack_le_H vs = Raise StructError).
Proof.
  induction vs as [|v vs IH].
  - left. split; [constructor|]. exists []. repeat split.
  - destruct (Z_le_dec 0 v) as [H0|H0]; [destruct (Z_le_dec v 65535) as [H1|H1]|].
    + destruct (pack_H_run v (conj H0 H1)) as (lo & hi & Ep & Ev).
      destruct IH as [(Hall & p & E & Hlen & Hun)|(Hno & E)].
      * left. split; [constructor; [lia|exact Hall]|].
        exists (lo :: hi :: p). cbn [struct_pack_le_H]. rewrite Ep, E. cbn [app].
        split; [reflexivity|]. split; [cbn [List.length]; lia|].
        cbn [unpack_le_H]. rewrite Ev, Hun. reflexivity.
      * right. split.
        { intros H. inversion H. contradiction. }
        simpl. rewrite Ep, E. reflexivity.
    + right. split.
      { intros H. inversion H. lia. }
      simpl. rewrite pack_H_rejects by lia. reflexivity.
    + right. split.
      { intros H. inversion H. lia. }
      simpl. rewrite pack_H_rejects by lia. reflexivity.
Qed.

(** ** The reader's resources *)

Lemma close_at_length i cs : List.length (close_at i cs) = List.length cs.
Proof.
  revert i. induction cs as [|c cs IH]; intros [|i]; simpl; auto.
Qed.

Lemma close_at_names i cs : map chip_name (close_at i cs) = map chip_name cs.
Proof.
  revert i. induction cs as [|c cs IH]; intros [|i]; simpl; auto.
  now rewrite IH.
Qed.

Lemma close_at_same i cs :
  nth_error (close_at i cs) i = option_map closed (nth_error cs i).
Proof.
  revert i. induction cs as [|c cs IH]; intros [|i]; simpl; auto.
Qed.

Lemma close_at_other i j cs :
  i <> j -> nth_error (close_at i cs) j = nth_error cs j.
Proof.
  revert i j. induction cs as [|c cs IH]; intros [|i] [|j] H; simpl; auto.
  contradiction.
Qed.

Lemma closed_closed c : closed (closed c) = closed c.
Proof. reflexivity. Qed.

Lemma close_all_nth handles cs j :
  (In j handles /\ nth_error (close_all handles cs) j = option_map closed (nth_error cs j))
  \/ (~ In j handles /\ nth_error (close_all handles cs) j = nth_error cs j).
Proof.
  unfold close_all. revert cs.
  induction handles as [|h handles IH]; intros cs.
  - right. split; [intros []|reflexivity].
  - simpl. destruct (IH (close_at h cs)) as [(Hin & E)|(Hno & E)].
    + left. split; [right; exact Hin|]. rewrite E.
      destruct (Nat.eq_dec h j) as [->|Hne].
      * rewrite close_at_same. destruct (nth_error cs j); reflexivity.
      * now rewrite close_at_other.
    + destruct (Nat.eq_dec h j) as [->|Hne].
      * left. split; [left; reflexivity|]. rewrite E. apply close_at_same.
      * right. split; [intros [H|H]; contradiction|].
        rewrite E. now apply close_at_other.
Qed.

Lemma close_all_names handles cs : map chip_name (close_all handles cs) = map chip_name cs.
Proof.
  unfold close_all. revert cs. induction handles as [|h handles IH]; intros cs; simpl.
  - reflexivity.
  - rewrite IH. apply close_at_names.
Qed.

Lemma for_each_close_run (l : list (nat * Z)) s :
  for_each l (fun '(chip, _) => Chip_close chip) s
  = (Ok tt, set_chips (close_all (map fst l) (chips s)) s, []).
Proof.
  revert s. induction l as [|[chip line] l IH]; intros s.
  - destruct s. reflexivity.
  - cbn [for_each]. rewrite (bind_quiet _ _ s tt _ eq_refl), IH.
    destruct s. reflexivity.
Qed.

Lemma cleanup_run s :
  cleanup s
  = (Ok tt,
     mkState (close_all (map fst (dict_values (pin_mappings s))) (chips s)) []
       (values s) (initialized s) (last_gpio_states s) (first_input s),
     []).
Proof.
  unfold cleanup. rewrite (bind_quiet _ _ s _ s eq_refl).
  rewrite (bind_quiet _ _ _ _ _ (for_each_close_run _ s)).
  reflexivity.
Qed.

(** X5: [cleanup] never raises and sends nothing. It empties the pin table,
    keeps the number and the names of the chips, closes every chip the pin
    table refers to, leaves every other chip as it was, touches nothing
    else, and a second [cleanup] changes nothing at all. *)
Theorem cleanup_closes_what_it_holds (s : State) :
  exists s',
    cleanup s = (Ok tt, s', []) /\
    pin_mappings s' = [] /\
    map chip_name (chips s') = map chip_name (chips s) /\
    (forall i,
       (In i (map fst (dict_values (pin_mappings s))) /\
        nth_error (chips s') i = option_map closed (nth_error (chips s) i))
       \/
       (~ In i (map fst (dict_values (pin_mappings s))) /\
        nth_error (chips s') i = nth_error (chips s) i)) /\
    (values s', initialized s', last_gpio_states s', first_input s')
      = (values s, initialized s, last_gpio_states s, first_input s) /\
    cleanup s' = (Ok tt, s', []).
Proof.
  eexists. split; [apply cleanup_run|].
  cbn [pin_mappings chips values initialized last_gpio_states first_input].
  split; [reflexivity|]. split; [apply close_all_names|].
  split; [intros i; apply close_all_nth|]. split; [reflexivity|].
  rewrite cleanup_run. reflexivity.
Qed.

(** X6: when [gpiofind] knows every pin, the constructor of [GPIOReader]
    returns with one open chip per pin, in the order of the pins and named
    as [gpiofind] said, and with the pin table sending the i-th pin to the
    i-th chip and the line offset [gpiofind] gave; nothing else of the state
    is touched and nothing is sent. *)
Theorem startup_opens_one_chip_per_pin (pf : Platform) :
  setup_ok pf ->
  GPIOReader_init pf pin_numbers initial_state
  = (Ok tt,
     mkState
       (map (fun pin => {| chip_name := fst (found pf pin); chip_open := true |})
            pin_numbers)
       (map (fun '(i, pin) => (pin, (i, snd (found pf pin))))
            (combine (seq 0 (List.length pin_numbers)) pin_numbers))
       neutral false [] false,
     []).
Proof.
  intros Hok.
  assert (H : forall pin, In pin pin_numbers ->
                          exists n o, gpiofind pf pin = Some (n, o)).
  { intros pin Hpin. specialize (Hok pin Hpin).
    destruct (gpiofind pf pin) as [[n o]|]; [eauto|contradiction]. }
  destruct (H 16) as (n0 & o0 & E0); [simpl; tauto|].
  destruct (H 13) as (n1 & o1 & E1); [simpl; tauto|].
  destruct (H 18) as (n2 & o2 & E2); [simpl; tauto|].
  destruct (H 11) as (n3 & o3 & E3); [simpl; tauto|].
  destruct (H 32) as (n4 & o4 & E4); [simpl; tauto|].
  destruct (H 38) as (n5 & o5 & E5); [simpl; tauto|].
  unfold GPIOReader_init, _setup_gpio, pin_numbers, try_except, bind, modify,
    _find_gpio_chip_and_line, found.
  cbn. rewrite E0. cbn. rewrite E1. cbn. rewrite E2. cbn.
  rewrite E3. cbn. rewrite E4. cbn. rewrite E5. cbn.
  reflexivity.
Qed.

Lemma startup_opens_one_chip_per_pin_witness :
  setup_ok demo_platform /\
  GPIOReader_init demo_platform pin_numbers initial_state
  = (Ok tt,
     mkState
       (map (fun pin => {| chip_name := fst (found demo_platform pin); chip_open := true |})
            pin_numbers)
       (map (fun '(i, pin) => (pin, (i, snd (found demo_platform pin))))
            (combine (seq 0 (List.length pin_numbers)) pin_numbers))
       neutral false [] false,
     []).
Proof.
  split; [exact demo_platform_ok|].
  exact (startup_opens_one_chip_per_pin demo_platform demo_platform_ok).
Defined.

Lemma GPIOReader_init_failure pf :
  ~ setup_ok pf ->
  exists s1,
    GPIOReader_init pf pin_numbers initial_state = (Raise RuntimeError, s1, []) /\
    released s1 /\
    List.length (chips s1) = found_before pf pin_numbers /\
    (values s1, initialized s1, last_gpio_states s1, first_input s1)
      = (neutral, false, [], false).
Proof.
  intros Hno.
  unfold GPIOReader_init, _setup_gpio, pin_numbers, try_except, bind, modify,
    _find_gpio_chip_and_line, found_before.
  cbn.
  destruct (gpiofind pf 16) as [[n0 o0]|] eqn:E0; cbn;
    [|eexists; split; [reflexivity|split; [split; [reflexivity|repeat constructor]|split; reflexivity]]].
  destruct (gpiofind pf 13) as [[n1 o1]|] eqn:E1; cbn;
    [|eexists; split; [reflexivity|split; [split; [reflexivity|repeat constructor]|split; reflexivity]]].
  destruct (gpiofind pf 18) as [[n2 o2]|] eqn:E2; cbn;
    [|eexists; split; [reflexivity|split; [split; [reflexivity|repeat constructor]|split; reflexivity]]].
  destruct (gpiofind pf 11) as [[n3 o3]|] eqn:E3; cbn;
    [|eexists; split; [reflexivity|split; [split; [reflexivity|repeat constructor]|split; reflexivity]]].
  destruct (gpiofind pf 32) as [[n4 o4]|] eqn:E4; cbn;
    [|eexists; split; [reflexivity|split; [split; [reflexivity|repeat constructor]|split; reflexivity]]].
  destruct (gpiofind pf 38) as [[n5 o5]|] eqn:E5; cbn;
    [|eexists; split; [reflexivity|split; [split; [reflexivity|repeat constructor]|split; reflexivity]]].
  contradiction Hno. intros pin Hpin. simpl in Hpin.
  repeat (destruct Hpin as [<-|Hpin]; [congruence|]). contradiction.
Qed.

(** X7: when [gpiofind] fails for some pin, [main] ends in its
    [except Exception] branch with the RuntimeError of [_setup_gpio],
    whatever turns were waiting: no datagram is sent, the loop variables
    are untouched, and the chips opened for the pins before the failing one
    (as many as there are such pins) are all closed again, the pin table
    empty. *)
Theorem startup_failure_is_clean (pf : Platform) (ticks : list Tick) :
  ~ setup_ok pf ->
  status_of (main pf ticks) = Failed RuntimeError /\
  sent (main pf ticks) = [] /\
  released (state_of (main pf ticks)) /\
  List.length (chips (state_of (main pf ticks))) = found_before pf pin_numbers /\
  (values (state_of (main pf ticks)), initialized (state_of (main pf ticks)))
    = (neutral, false).
Proof.
  intros Hno.
  destruct (GPIOReader_init_failure pf Hno) as (s1 & E & Hrel & Hlen & Hrest).
  assert (Em : main pf ticks = (Failed RuntimeError, s1, [])).
  { unfold main, with_GPIOReader. rewrite (bind_raise _ _ _ _ _ _ E). reflexivity. }
  rewrite Em. unfold status_of, sent, state_of. cbn [fst snd].
  injection Hrest as Hv Hi _ _.
  repeat split; try assumption; try apply Hrel.
  now rewrite Hv, Hi.
Qed.

Lemma platform_without_18_fails : ~ setup_ok platform_without_18.
Proof. intros H. apply (H 18); [simpl; tauto|reflexivity]. Qed.

Lemma startup_failure_is_clean_witness :
  ~ setup_ok platform_without_18 /\
  status_of (main platform_without_18 [turn [16] "w"]) = Failed RuntimeError /\
  sent (main platform_without_18 [turn [16] "w"]) = [] /\
  released (state_of (main platform_without_18 [turn [16] "w"])) /\
  List.length (chips (state_of (main platform_without_18 [turn [16] "w"])))
    = found_before platform_without_18 pin_numbers /\
  (values (state_of (main platform_without_18 [turn [16] "w"])),
   initialized (state_of (main platform_without_18 [turn [16] "w"])))
    = (neutral, false).
Proof.
  split; [exact platform_without_18_fails|].
  exact (startup_failure_is_clean platform_without_18 [turn [16] "w"]
           platform_without_18_fails).
Defined.

(** ** Reading the pins *)

Lemma dict_get_set_same {V} (k : Z) (v : V) (d : dict Z V) :
  dict_get Z.eqb k (dict_set Z.eqb k v d) = Some v.
Proof.
  induction d as [|[k' v'] d IH]; simpl.
  - now rewrite Z.eqb_refl.
  - destruct (k =? k') eqn:E; simpl; rewrite E; auto.
Qed.

Lemma dict_get_set_other {V} (k k' : Z) (v : V) (d : dict Z V) :
  k' <> k -> dict_get Z.eqb k' (dict_set Z.eqb k v d) = dict_get Z.eqb k' d.
Proof.
  intros Hne. induction d as [|[k0 v0] d IH]; simpl.
  - apply Z.eqb_neq in Hne. now rewrite Hne.
  - destruct (k =? k0) eqn:E; simpl.
    + apply Z.eqb_eq in E. subst k0. apply Z.eqb_neq in Hne. now rewrite Hne.
    + now rewrite IH.
Qed.

Lemma dict_set_keys {V} (k k' : Z) (v : V) (d : dict Z V) :
  In k' (dict_keys (dict_set Z.eqb k v d)) <-> k' = k \/ In k' (dict_keys d).
Proof.
  induction d as [|[k0 v0] d IH]; simpl.
  - intuition.
  - destruct (k =? k0) eqn:E; simpl.
    + apply Z.eqb_eq in E. subst k0. intuition.
    + rewrite IH. intuition.
Qed.

Lemma dict_set_NoDup {V} (k : Z) (v : V) (d : dict Z V) :
  NoDup (dict_keys d) -> NoDup (dict_keys (dict_set Z.eqb k v d)).
Proof.
  induction d as [|[k0 v0] d IH]; simpl; intros H.
  - constructor; [intros []|constructor].
  - inversion H as [|? ? Hnot Hd]; subst.
    destruct (k =? k0) eqn:E; simpl.
    + constructor; assumption.
    + constructor; [|auto].
      intros Hin. apply dict_set_keys in Hin. destruct Hin as [->|Hin].
      * rewrite Z.eqb_refl in E. discriminate.
      * contradiction.
Qed.

Lemma read_fold (get_value : Z -> Z) (pins : list Z) (vals : dict Z Z) :
  let d := fold_left (fun d pin => dict_set Z.eqb pin (get_value pin) d) pins vals in
  (forall pin, In pin pins -> dict_get Z.eqb pin d = Some (get_value pin)) /\
  (forall pin, ~ In pin pins -> dict_get Z.eqb pin d = dict_get Z.eqb pin vals) /\
  (forall pin, In pin (dict_keys d) -> In pin pins \/ In pin (dict_keys vals)) /\
  (NoDup (dict_keys vals) -> NoDup (dict_keys d)).
Proof.
  revert vals. induction pins as [|p pins IH]; intros vals; cbn zeta.
  - simpl. repeat split; auto. intros pin [].
  - cbn [fold_left].
    destruct (IH (dict_set Z.eqb p (get_value p) vals)) as (H1 & H2 & H3 & H4).
    cbn zeta in H1, H2, H3, H4.
    split; [|split; [|split]].
    + intros pin [->|Hin].
      * destruct (in_dec Z.eq_dec pin pins) as [Hi|Hi]; [auto|].
        rewrite H2 by exact Hi. apply dict_get_set_same.
      * auto.
    + intros pin Hno. rewrite H2 by (intros H; apply Hno; right; exact H).
      apply dict_get_set_other. intros ->. apply Hno. left. reflexivity.
    + intros pin Hin. destruct (H3 pin Hin) as [H|H].
      * left. right. exact H.
      * apply dict_set_keys in H. destruct H as [->|H]; [left; left; reflexivity|auto].
    + intros Hnd. apply H4. apply dict_set_NoDup. exact Hnd.
Qed.

Lemma read_all_from_missing get_value pins vals s :
  ~ incl pins (dict_keys (pin_mappings s)) ->
  read_all_from get_value pins vals s = (Raise KeyError, s, []).
Proof.
  revert vals. induction pins as [|pin pins IH]; intros vals Hno.
  - contradiction Hno. intros k [].
  - cbn [read_all_from]. rewrite (bind_quiet _ _ s _ s eq_refl).
    destruct (dict_get Z.eqb pin (pin_mappings s)) as [v|] eqn:E.
    + rewrite (bind_quiet _ _ s v s) by (unfold getitem; rewrite E; reflexivity).
      apply IH. intros Hin. apply Hno. intros k [<-|Hk].
      * clear -E. induction (pin_mappings s) as [|[k' v'] d IHd]; [discriminate|].
        simpl in *. destruct (pin =? k') eqn:Ek.
        -- apply Z.eqb_eq in Ek. auto.
        -- auto.
      * apply Hin. exact Hk.
    + apply bind_raise. unfold getitem. rewrite E. reflexivity.
Qed.

(** X8: [read_all] over any list of pins. If every pin is in the pin table
    it returns a dict that gives each pin the level of its line, has no
    other key and no key twice, and it changes nothing; if some pin is
    missing from the table it raises KeyError, again changing nothing. It
    never sends. *)
Theorem read_all_reads_every_pin (pins : list Z) (get_value : Z -> Z) (s : State) :
  (incl pins (dict_keys (pin_mappings s)) /\
   exists d,
     read_all pins get_value s = (Ok d, s, []) /\
     Forall (fun pin => dict_get Z.eqb pin d = Some (get_value pin)) pins /\
     incl (dict_keys d) pins /\
     NoDup (dict_keys d))
  \/
  (~ incl pins (dict_keys (pin_mappings s)) /\
   read_all pins get_value s = (Raise KeyError, s, [])).
Proof.
  assert (Hdec : incl pins (dict_keys (pin_mappings s)) \/
                 ~ incl pins (dict_keys (pin_mappings s))).
  { induction pins as [|p pins IH].
    - left. intros k [].
    - destruct (in_dec Z.eq_dec p (dict_keys (pin_mappings s))) as [Hp|Hp].
      + destruct IH as [H|H].
        * left. intros k [<-|Hk]; auto.
        * right. intros Hi. apply H. intros k Hk. apply Hi. right. exact Hk.
      + right. intros Hi. apply Hp. apply Hi. left. reflexivity. }
  destruct Hdec as [Hin|Hno].
  - left. split; [exact Hin|].
    eexists. split; [apply read_all_from_run; exact Hin|].
    destruct (read_fold get_value pins []) as (H1 & _ & H3 & H4). cbn zeta in *.
    split; [apply Forall_forall; exact H1|]. split.
    + intros k Hk. destruct (H3 k Hk) as [H|[]]. exact H.
    + apply H4. constructor.
  - right. split; [exact Hno|]. apply read_all_from_missing. exact Hno.
Qed.

(** ** A turn as a function *)

Lemma pin_loop_run (items : dict Z Z) s :
  ready s -> incl (dict_keys items) pin_numbers ->
  for_each items (fun '(pin, state) => gpio_item pin state) s
  = (Ok tt,
     (if is_nil (accepted_pins (last_gpio_states s) items) then s
      else mkState (chips s) (pin_mappings s) neutral true (last_gpio_states s)
             (first_input s || negb (initialized s))),
     List.concat
       (map (fun pin =>
               (if first_input s || negb (initialized s) then init_burst else [])
               ++ pin_burst pin)
            (accepted_pins (last_gpio_states s) items))).
Proof.
  revert s. induction items as [|[pin state] items IH]; intros s Hr Hin.
  - reflexivity.
  - assert (Hpin : In pin pin_numbers) by (apply Hin; left; reflexivity).
    assert (Hin' : incl (dict_keys items) pin_numbers)
      by (intros k Hk; apply Hin; right; exact Hk).
    unfold accepted_pins. cbn [filter].
    destruct (gpio_item_run pin state s Hr Hpin) as [(H1 & H2 & E)|(Hn & E)].
    + cbn [rising]. subst state. rewrite H2.
      cbn [Z.eqb Pos.eqb andb map List.concat fst is_nil].
      destruct s as [ch pm vals ini lst fi].
      rewrite (gpio_pressed_run pin ch pm vals ini lst fi Hpin) in E.
      cbn [chips pin_mappings values initialized last_gpio_states first_input] in *.
      cbn [for_each].
      erewrite bind_run; [|exact E|apply IH; [exact Hr|exact Hin']].
      cbn [chips pin_mappings values initialized last_gpio_states first_input].
      cbn [negb]. rewrite orb_false_r.
      destruct (is_nil (accepted_pins lst items)); reflexivity.
    + assert (Er : rising (last_gpio_states s) (pin, state) = false).
      { cbn [rising]. destruct (state =? 1) eqn:E1; [|reflexivity].
        apply Z.eqb_eq in E1. cbn [andb].
        destruct (dict_get Z.eqb pin (last_gpio_states s)) as [l|] eqn:E2; [|reflexivity].
        destruct (l =? 0) eqn:E3; [|reflexivity].
        apply Z.eqb_eq in E3. subst l. contradiction Hn. auto. }
      rewrite Er. cbn [for_each]. rewrite (bind_quiet _ _ _ _ _ E).
      apply IH; assumption.
Qed.

Lemma ready_after_turn s t : ready s -> ready (after_turn s t).
Proof. intros [Hp _]. split; [exact Hp|reflexivity]. Qed.

Lemma quit_is_no_key t : quits t = true -> typed_key t = false.
Proof.
  unfold quits, typed_key. intros H. apply String.eqb_eq in H. rewrite H. reflexivity.
Qed.

Lemma check_gpio_inputs_run t s :
  ready s ->
  check_gpio_inputs t s
  = (Ok tt,
     set_last_gpio_states (readings t)
       (if is_nil (accepted_pins (last_gpio_states s) (readings t))
        then set_first_input false s
        else mkState (chips s) (pin_mappings s) neutral true (last_gpio_states s)
               (negb (initialized s))),
     List.concat
       (map (fun pin => (if initialized s then [] else init_burst) ++ pin_burst pin)
            (accepted_pins (last_gpio_states s) (readings t)))).
Proof.
  intros Hr. unfold check_gpio_inputs.
  rewrite (bind_quiet _ _ _ _ _ (read_all_run (levels t) s Hr)).
  fold (readings t).
  rewrite (bind_quiet _ _ _ _ (set_first_input false s) eq_refl).
  assert (Hr0 : ready (set_first_input false s)) by (destruct Hr; split; assumption).
  erewrite bind_run;
    [|exact (pin_loop_run (readings t) (set_first_input false s) Hr0 (incl_refl _))
     |reflexivity].
  destruct s as [ch pm vals ini lst fi].
  cbn [set_first_input chips pin_mappings values initialized last_gpio_states
       first_input orb].
  rewrite app_nil_r. destruct ini; reflexivity.
Qed.

Lemma loop_body_run t s :
  ready s ->
  loop_body t s
  = (Ok (if quits t then Break else Continue), after_turn s t, turn_out s t).
Proof.
  intros Hr. unfold loop_body.
  pose proof (check_gpio_inputs_run t s Hr) as Hp.
  destruct s as [ch pm vals ini lst fi].
  cbn [set_first_input chips pin_mappings values initialized last_gpio_states
       first_input] in Hp.
  unfold turn_out, after_turn, check_keyboard_input.
  cbn [chips pin_mappings values initialized last_gpio_states first_input].
  fold (quits t). fold (typed_key t).
  set (acc := accepted_pins lst (readings t)) in *.
  destruct (quits t) eqn:Eq.
  - rewrite (quit_is_no_key t Eq).
    erewrite bind_run; [|exact Hp|reflexivity].
    destruct acc as [|p acc], ini; cbn; rewrite ?app_nil_r; reflexivity.
  - destruct (typed_key t) eqn:Ek.
    + assert (Hk : In (user_input t) (dict_keys key_mapping)).
      { unfold typed_key, dict_mem in Ek.
        destruct (dict_get String.eqb (user_input t) key_mapping) eqn:Eg; [|discriminate].
        eapply dict_get_Some_keys_string. exact Eg. }
      erewrite bind_run; [|exact Hp|].
      2:{ erewrite bind_run; [|apply key_item_run; exact Hk|reflexivity]. reflexivity. }
      destruct acc as [|p acc], ini; cbn; rewrite ?app_nil_r; reflexivity.
    + erewrite bind_run; [|exact Hp|reflexivity].
      destruct acc as [|p acc], ini; cbn; rewrite ?app_nil_r; reflexivity.
Qed.

Lemma accepted_pins_incl last items : incl (accepted_pins last items) (dict_keys items).
Proof.
  unfold accepted_pins, dict_keys. intros k Hk.
  apply in_map_iff in Hk. destruct Hk as (x & <- & Hx).
  apply filter_In in Hx. apply in_map. apply Hx.
Qed.

Lemma accepted_in_pin_numbers s t :
  incl (accepted_pins (last_gpio_states s) (readings t)) pin_numbers.
Proof. apply (accepted_pins_incl (last_gpio_states s) (readings t)). Qed.

Lemma while_true_cons t ticks s :
  ready s ->
  while_true (t :: ticks) s
  = if quits t then (Ok true, after_turn s t, turn_out s t)
    else let '(r, s2, o2) := while_true ticks (after_turn s t) in
         (r, s2, turn_out s t ++ o2).
Proof.
  intros Hr. cbn [while_true]. unfold bind. rewrite (loop_body_run t s Hr).
  destruct (quits t); unfold ret; cbv beta iota; [now rewrite app_nil_r|reflexivity].
Qed.

Lemma key_burst_length key :
  In key (dict_keys key_mapping) -> List.length (key_burst key) = 5%nat.
Proof.
  intros H. simpl in H.
  repeat (destruct H as [<-|H]; [reflexivity|]). contradiction.
Qed.

Lemma pin_burst_length pin :
  In pin pin_numbers -> List.length (pin_burst pin) = 5%nat.
Proof.
  intros H. simpl in H.
  repeat (destruct H as [<-|H]; [reflexivity|]). contradiction.
Qed.

Lemma typed_key_in_table t :
  typed_key t = true -> In (user_input t) (dict_keys key_mapping).
Proof.
  unfold typed_key, dict_mem. intros H.
  destruct (dict_get String.eqb (user_input t) key_mapping) eqn:E; [|discriminate].
  eapply dict_get_Some_keys_string. exact E.
Qed.

Lemma length_concat_bursts (pre : list (list byte)) (pins : list Z) :
  incl pins pin_numbers ->
  List.length (List.concat (map (fun pin => pre ++ pin_burst pin) pins))
  = ((List.length pre + 5) * List.length pins)%nat.
Proof.
  induction pins as [|p pins IH]; intros Hin; [simpl; lia|].
  cbn [map List.concat]. rewrite !length_app, IH, pin_burst_length.
  - cbn [List.length]. lia.
  - apply Hin. left. reflexivity.
  - intros k Hk. apply Hin. right. exact Hk.
Qed.

(** X9: with every datagram accepted by the socket, a turn of the loop,
    started where the loop can read its pins, runs to its end and is the
    function [after_turn] / [turn_out] of the state and of what the turn
    reads: it breaks exactly on 'q'; every rising pin, in the
    order of the pins, is answered by its 5-frame command burst, preceded by
    the 201-frame initialization burst when the turn began with the flag
    down; a typed key of the table is then answered by its command burst,
    preceded by the initialization burst only if the flag is still down. *)
Theorem a_turn_is_a_function (t : Tick) (s : State) :
  ready s ->
  loop_body t s
    = (Ok (if quits t then Break else Continue), after_turn s t, turn_out s t) /\
  List.length (turn_out s t)
    = ((if initialized s then 5 else 206)
       * List.length (accepted_pins (last_gpio_states s) (readings t))
       + (if typed_key t then
            if initialized s
               || negb (is_nil (accepted_pins (last_gpio_states s) (readings t)))
            then 5 else 206
          else 0))%nat.
Proof.
  intros Hr. split; [exact (loop_body_run t s Hr)|].
  unfold turn_out. rewrite length_app.
  rewrite (length_concat_bursts _ _ (accepted_in_pin_numbers s t)).
  f_equal.
  - destruct (initialized s); reflexivity.
  - destruct (typed_key t) eqn:Ek; [|reflexivity].
    rewrite length_app, (key_burst_length _ (typed_key_in_table t Ek)).
    destruct (initialized s || negb (is_nil _)); reflexivity.
Qed.

Lemma demo_entry_ready : ready (loop_entry demo_platform).
Proof. split; reflexivity. Qed.

Lemma a_turn_is_a_function_witness :
  ready (loop_entry demo_platform) /\
  loop_body (turn [16%Z; 38%Z] "s") (loop_entry demo_platform)
    = (Ok (if quits (turn [16%Z; 38%Z] "s") then Break else Continue),
       after_turn (loop_entry demo_platform) (turn [16%Z; 38%Z] "s"),
       turn_out (loop_entry demo_platform) (turn [16%Z; 38%Z] "s")) /\
  List.length (turn_out (loop_entry demo_platform) (turn [16%Z; 38%Z] "s"))
    = ((if initialized (loop_entry demo_platform) then 5 else 206)
       * List.length (accepted_pins (last_gpio_states (loop_entry demo_platform))
                        (readings (turn [16%Z; 38%Z] "s")))
       + (if typed_key (turn [16%Z; 38%Z] "s") then
            if initialized (loop_entry demo_platform)
               || negb (is_nil (accepted_pins (last_gpio_states (loop_entry demo_platform))
                                  (readings (turn [16%Z; 38%Z] "s"))))
            then 5 else 206
          else 0))%nat.
Proof.
  split; [exact demo_entry_ready|].
  exact (a_turn_is_a_function (turn [16%Z; 38%Z] "s") (loop_entry demo_platform)
           demo_entry_ready).
Defined.

(** X10: a turn on which no pin shows 1 where it showed 0 before, and on
    which nothing from the table is typed, sends nothing and keeps the
    sticks and the flag; it only records the new samples. Held buttons,
    released buttons and unknown or empty lines are such turns. *)
Theorem quiet_turn_sends_nothing (t : Tick) (s : State) :
  ready s ->
  Forall (fun pin => levels t pin <> 1 \/
                     dict_get Z.eqb pin (last_gpio_states s) <> Some 0) pin_numbers ->
  typed_key t = false ->
  out (loop_body t s) = [] /\
  st (loop_body t s)
    = set_last_gpio_states (readings t) (set_first_input false s).
Proof.
  intros Hr Hq Hk.
  assert (Hacc : accepted_pins (last_gpio_states s) (readings t) = []).
  { unfold accepted_pins, readings. rewrite Forall_forall in Hq.
    assert (G : forall pins, incl pins pin_numbers ->
                filter (rising (last_gpio_states s))
                  (map (fun pin => (pin, levels t pin)) pins) = []).
    { induction pins as [|p pins IH]; intros Hin; [reflexivity|].
      cbn [map filter].
      assert (Er : rising (last_gpio_states s) (p, levels t p) = false).
      { cbn [rising]. destruct (levels t p =? 1) eqn:E1; [|reflexivity].
        apply Z.eqb_eq in E1. cbn [andb].
        destruct (dict_get Z.eqb p (last_gpio_states s)) as [l|] eqn:E2; [|reflexivity].
        destruct (l =? 0) eqn:E3; [|reflexivity].
        apply Z.eqb_eq in E3. subst l.
        destruct (Hq p (Hin p (or_introl eq_refl))) as [H|H]; contradiction. }
      rewrite Er. apply IH. intros k Hk'. apply Hin. right. exact Hk'. }
    rewrite (G pin_numbers (incl_refl _)). reflexivity. }
  rewrite (loop_body_run t s Hr). unfold out, st, turn_out, after_turn.
  cbn [fst snd]. rewrite Hacc, Hk. cbn [map List.concat is_nil andb negb app].
  split; [reflexivity|].
  destruct s as [ch pm vals ini lst fi]. cbn. now rewrite !orb_false_r.
Qed.

Lemma quiet_turn_sends_nothing_witness :
  ready (after_turn (loop_entry demo_platform) (turn [16] "")) /\
  Forall (fun pin =>
            levels (turn [16] "zz") pin <> 1 \/
            dict_get Z.eqb pin
              (last_gpio_states (after_turn (loop_entry demo_platform) (turn [16] "")))
            <> Some 0) pin_numbers /\
  typed_key (turn [16] "zz") = false /\
  out (loop_body (turn [16] "zz") (after_turn (loop_entry demo_platform) (turn [16] ""))) = [] /\
  st (loop_body (turn [16] "zz") (after_turn (loop_entry demo_platform) (turn [16] "")))
    = set_last_gpio_states (readings (turn [16] "zz"))
        (set_first_input false (after_turn (loop_entry demo_platform) (turn [16] ""))).
Proof.
  assert (H1 : ready (after_turn (loop_entry demo_platform) (turn [16] "")))
    by (apply ready_after_turn; exact demo_entry_ready).
  assert (H2 : Forall (fun pin =>
            levels (turn [16] "zz") pin <> 1 \/
            dict_get Z.eqb pin
              (last_gpio_states (after_turn (loop_entry demo_platform) (turn [16] "")))
            <> Some 0) pin_numbers).
  { unfold pin_numbers. cbn [dict_keys map gpio_mapping fst].
    repeat (apply Forall_cons;
            [(left; vm_compute; discriminate) || (right; vm_compute; discriminate)|]).
    apply Forall_nil. }
  assert (H3 : typed_key (turn [16] "zz") = false) by reflexivity.
  split; [exact H1|]. split; [exact H2|]. split; [exact H3|].
  exact (quiet_turn_sends_nothing (turn [16] "zz") _ H1 H2 H3).
Defined.

(** ** Whole runs, turn by turn *)

Lemma while_true_res ticks s :
  ready s -> res (while_true ticks s) = Ok (existsb quits ticks).
Proof.
  revert s. induction ticks as [|t ticks IH]; intros s Hr; [reflexivity|].
  rewrite (while_true_cons t ticks s Hr). cbn [existsb].
  destruct (quits t); [reflexivity|]. cbn [orb].
  specialize (IH (after_turn s t) (ready_after_turn s t Hr)).
  destruct (while_true ticks (after_turn s t)) as [[r s2] o2]. exact IH.
Qed.

(** X11: with every datagram accepted by the socket and no interrupt, the
    loop's own steps never raise once start-up has succeeded: no lookup in
    [pin_mappings], [last_gpio_states], [gpio_mapping] or [key_mapping]
    misses, no [bytes(...)] and no [struct.pack] fails. After any turns
    such a run is still in the loop or has left it by [break], and it has
    left exactly when 'q' was typed on one of the turns. *)
Theorem the_loop_itself_never_raises (pf : Platform) (ticks : list Tick) :
  setup_ok pf ->
  status_of (main pf ticks) = if existsb quits ticks then Exited else Running.
Proof.
  intros Hok. rewrite (main_run pf ticks Hok).
  destruct (loop_entry_ready pf Hok) as (Hr & _).
  pose proof (while_true_res ticks (loop_entry pf) Hr) as H.
  destruct (while_true ticks (loop_entry pf)) as [[r s] o].
  unfold res in H. cbn [fst] in H. subst r.
  destruct (existsb quits ticks); reflexivity.
Qed.

Lemma the_loop_itself_never_raises_witness :
  setup_ok demo_platform /\
  status_of (main demo_platform [turn [16; 13] "x"; turn [] "nonsense"; turn [11] ""])
  = if existsb quits [turn [16; 13] "x"; turn [] "nonsense"; turn [11] ""]
    then Exited else Running.
Proof.
  split; [exact demo_platform_ok|].
  exact (the_loop_itself_never_raises demo_platform
           [turn [16; 13] "x"; turn [] "nonsense"; turn [11] ""] demo_platform_ok).
Defined.

Lemma is_nil_app {A} (a b : list A) : is_nil (a ++ b) = is_nil a && is_nil b.
Proof. destruct a; reflexivity. Qed.

Lemma turn_out_nil s t :
  is_nil (turn_out s t)
  = is_nil (accepted_pins (last_gpio_states s) (readings t)) && negb (typed_key t).
Proof.
  unfold turn_out. rewrite is_nil_app.
  pose proof (accepted_in_pin_numbers s t) as Hin.
  destruct (accepted_pins (last_gpio_states s) (readings t)) as [|p acc].
  - cbn [map List.concat is_nil andb].
    destruct (typed_key t) eqn:Ek; [|reflexivity].
    rewrite is_nil_app.
    pose proof (key_burst_length _ (typed_key_in_table t Ek)) as Hl.
    destruct (key_burst (user_input t)); [discriminate|].
    cbn [is_nil]. now rewrite andb_false_r.
  - cbn [map List.concat]. rewrite !is_nil_app.
    pose proof (pin_burst_length p (Hin p (or_introl eq_refl))) as Hl.
    destruct (pin_burst p); [discriminate|].
    cbn [is_nil]. now rewrite andb_false_r.
Qed.

Lemma while_true_values ticks s :
  ready s -> values s = neutral ->
  values (st (while_true ticks s)) = neutral /\
  initialized (st (while_true ticks s))
  = initialized s || negb (is_nil (out (while_true ticks s))).
Proof.
  revert s. induction ticks as [|t ticks IH]; intros s Hr Hv.
  - cbn. split; [exact Hv|now rewrite orb_false_r].
  - rewrite (while_true_cons t ticks s Hr).
    assert (Hv' : values (after_turn s t) = neutral).
    { unfold after_turn. cbn [values]. rewrite Hv. now destruct (_ && _). }
    assert (Hi' : initialized (after_turn s t)
                  = initialized s || negb (is_nil (turn_out s t))).
    { unfold after_turn. cbn [initialized]. rewrite turn_out_nil.
      rewrite negb_andb, negb_involutive. now rewrite orb_assoc. }
    destruct (quits t).
    + unfold st, out. cbn [fst snd]. auto.
    + destruct (IH (after_turn s t) (ready_after_turn s t Hr) Hv') as [H1 H2].
      destruct (while_true ticks (after_turn s t)) as [[r s2] o2].
      unfold st, out in *. cbn [fst snd] in *. split; [exact H1|].
      rewrite H2, Hi', is_nil_app, negb_andb. now rewrite orb_assoc.
Qed.

(** X12: with every datagram accepted by the socket and no interrupt,
    whatever the platform and the turns: whenever the run stands between
    two turns, or has left the loop by 'q', or has failed at start-up, the
    sticks are at neutral, all sixteen at 1500, and the flag is set exactly
    when something has been sent. *)
Theorem sticks_rest_neutral_and_flag_tells_sent (pf : Platform) (ticks : list Tick) :
  values (state_of (main pf ticks)) = repeat 1500 16 /\
  initialized (state_of (main pf ticks)) = negb (is_nil (sent (main pf ticks))).
Proof.
  destruct (setup_ok_dec pf) as [Hok|Hno].
  - rewrite (main_run pf ticks Hok).
    destruct (loop_entry_ready pf Hok) as (Hr & Hi & _).
    destruct (loop_entry_shape pf Hok) as (ch & v0 & v1 & v2 & v3 & v4 & v5 & E).
    assert (Hv : values (loop_entry pf) = neutral) by (rewrite E; reflexivity).
    destruct (while_true_values ticks (loop_entry pf) Hr Hv) as [H1 H2].
    rewrite Hi in H2. cbn [orb] in H2.
    pose proof (while_true_res ticks (loop_entry pf) Hr) as H3.
    destruct (while_true ticks (loop_entry pf)) as [[r s] o].
    unfold st, out, res in *. cbn [fst snd] in *. subst r.
    destruct (existsb quits ticks); unfold state_of, sent; cbn [fst snd].
    + rewrite cleanup_run. cbn [fst snd values initialized]. auto.
    + auto.
  - destruct (GPIOReader_init_failure pf Hno) as (s1 & E & _ & _ & Hrest).
    assert (Em : main pf ticks = (Failed RuntimeError, s1, [])).
    { unfold main, with_GPIOReader. rewrite (bind_raise _ _ _ _ _ _ E). reflexivity. }
    rewrite Em. unfold state_of, sent. cbn [fst snd].
    injection Hrest as Hv Hi _ _. rewrite Hv, Hi. split; reflexivity.
Qed.

Lemma pin_burst_is_key_burst pin :
  In pin pin_numbers ->
  exists key, In key (dict_keys key_mapping) /\ pin_burst pin = key_burst key.
Proof.
  intros H. simpl in H.
  repeat (destruct H as [<-|H];
          [eexists; split; [|reflexivity]; simpl; tauto|]).
  contradiction.
Qed.

Lemma turn_out_Forall (P : list byte -> Prop) s t :
  Forall P init_burst ->
  (forall key, In key (dict_keys key_mapping) -> Forall P (key_burst key)) ->
  Forall P (turn_out s t).
Proof.
  intros Hi Hk. unfold turn_out. apply Forall_app. split.
  - pose proof (accepted_in_pin_numbers s t) as Hin.
    induction (accepted_pins (last_gpio_states s) (readings t)) as [|p acc IH];
      [constructor|].
    cbn [map List.concat]. apply Forall_app. split.
    + apply Forall_app. split.
      * destruct (initialized s); [constructor|exact Hi].
      * destruct (pin_burst_is_key_burst p (Hin p (or_introl eq_refl))) as (k & Hk1 & ->).
        apply Hk. exact Hk1.
    + apply IH. intros k Hk'. apply Hin. right. exact Hk'.
  - destruct (typed_key t) eqn:Ek; [|constructor].
    apply Forall_app. split.
    + destruct (initialized s || negb _); [constructor|exact Hi].
    + apply Hk. apply typed_key_in_table. exact Ek.
Qed.

Lemma while_true_Forall (P : list byte -> Prop) ticks s :
  Forall P init_burst ->
  (forall key, In key (dict_keys key_mapping) -> Forall P (key_burst key)) ->
  ready s ->
  Forall P (out (while_true ticks s)).
Proof.
  intros Hi Hk. revert s. induction ticks as [|t ticks IH]; intros s Hr.
  - constructor.
  - rewrite (while_true_cons t ticks s Hr).
    pose proof (turn_out_Forall P s t Hi Hk) as Ht.
    destruct (quits t); [exact Ht|].
    specialize (IH (after_turn s t) (ready_after_turn s t Hr)).
    destruct (while_true ticks (after_turn s t)) as [[r s2] o2].
    unfold out in *. cbn [snd] in *. apply Forall_app. auto.
Qed.

Lemma sent_main_run pf ticks :
  setup_ok pf -> sent (main pf ticks) = out (while_true ticks (loop_entry pf)).
Proof.
  intros Hok. rewrite (main_run pf ticks Hok).
  destruct (while_true ticks (loop_entry pf)) as [[[[]|e] s] o]; reflexivity.
Qed.

Lemma main_Forall (P : list byte -> Prop) pf ticks :
  Forall P init_burst ->
  (forall key, In key (dict_keys key_mapping) -> Forall P (key_burst key)) ->
  Forall P (sent (main pf ticks)).
Proof.
  intros Hi Hk. destruct (setup_ok_dec pf) as [Hok|Hno].
  - rewrite (sent_main_run pf ticks Hok).
    apply while_true_Forall; [exact Hi|exact Hk|].
    apply (loop_entry_ready pf Hok).
  - destruct (main_setup_failed pf ticks Hno) as (s1 & E & _).
    rewrite E. constructor.
Qed.

(** X13: whatever the platform and the turns, every datagram a run sends is
    one of the datagrams of the initialization burst or of the command
    burst of a key of the table, and it is a frame a receiver accepts: it
    starts with "$M", its size byte matches its length, the XOR over size,
    command, payload and checksum is 0, and it has 7 bytes under command
    182 or 101 or 38 bytes under command 105. *)
Theorem only_valid_frames_are_sent (pf : Platform) (ticks : list Tick) :
  Forall (fun m => In m (init_burst ++ List.concat (map key_burst (dict_keys key_mapping))))
         (sent (main pf ticks)) /\
  Forall (fun m => well_formed m = true) (sent (main pf ticks)).
Proof.
  split.
  - apply main_Forall.
    + apply Forall_forall. intros m Hm. apply in_or_app. left. exact Hm.
    + intros key Hkey. apply Forall_forall. intros m Hm. apply in_or_app. right.
      apply in_concat. exists (key_burst key). split; [|exact Hm].
      apply in_map. exact Hkey.
  - apply main_Forall.
    + apply Forall_forall. intros m Hm.
      assert (H : forallb well_formed init_burst = true) by (vm_compute; reflexivity).
      rewrite forallb_forall in H. auto.
    + intros key Hkey. apply Forall_forall. intros m Hm.
      assert (H : forallb well_formed (key_burst key) = true).
      { simpl in Hkey.
        repeat (destruct Hkey as [<-|Hkey]; [vm_compute; reflexivity|]).
        contradiction. }
      rewrite forallb_forall in H. auto.
Qed.

(** ** One button at a time *)

Lemma count_init_app a b : count_init (a ++ b) = (count_init a + count_init b)%nat.
Proof. unfold count_init. now rewrite filter_app, length_app. Qed.

Lemma count_init_key_burst key :
  In key (dict_keys key_mapping) -> count_init (key_burst key) = 0%nat.
Proof.
  intros H. simpl in H.
  repeat (destruct H as [<-|H]; [reflexivity|]). contradiction.
Qed.

Lemma count_init_pin_burst pin : In pin pin_numbers -> count_init (pin_burst pin) = 0%nat.
Proof.
  intros H. simpl in H.
  repeat (destruct H as [<-|H]; [reflexivity|]). contradiction.
Qed.

Lemma count_init_init_burst : count_init init_burst = 1%nat.
Proof. vm_compute. reflexivity. Qed.

Lemma accepted_le_high s t :
  (List.length (accepted_pins (last_gpio_states s) (readings t))
   <= List.length (filter (fun pin => (levels t pin =? 1)%Z) pin_numbers))%nat.
Proof.
  unfold accepted_pins, readings. rewrite length_map.
  induction pin_numbers as [|p pins IH]; [apply Nat.le_refl|].
  cbn [map filter rising].
  destruct (levels t p =? 1); cbn [andb].
  - destruct (match dict_get Z.eqb p (last_gpio_states s) with
              | Some l => l =? 0 | None => false end);
      cbn [List.length]; lia.
  - exact IH.
Qed.

Lemma turn_count_init s t :
  one_high t ->
  count_init (turn_out s t)
  = if initialized s then 0%nat
    else if is_nil (turn_out s t) then 0%nat else 1%nat.
Proof.
  intros H1. pose proof (accepted_le_high s t) as Hle.
  pose proof (accepted_in_pin_numbers s t) as Hin.
  unfold one_high in H1. rewrite turn_out_nil. unfold turn_out.
  destruct (accepted_pins (last_gpio_states s) (readings t)) as [|p [|q acc]].
  - cbn [map List.concat is_nil app andb negb orb].
    destruct (typed_key t) eqn:Ek; cbn [negb].
    + rewrite orb_false_r, count_init_app,
        (count_init_key_burst _ (typed_key_in_table t Ek)).
      destruct (initialized s); [reflexivity|apply count_init_init_burst].
    + now destruct (initialized s).
  - cbn [map List.concat is_nil andb negb].
    rewrite app_nil_r, orb_true_r, !count_init_app.
    rewrite (count_init_pin_burst p (Hin p (or_introl eq_refl))).
    assert (Hk : count_init (if typed_key t then [] ++ key_burst (user_input t) else [])
                 = 0%nat).
    { destruct (typed_key t) eqn:Ek; [|reflexivity].
      apply (count_init_key_burst _ (typed_key_in_table t Ek)). }
    rewrite Hk.
    destruct (initialized s); [reflexivity|now rewrite count_init_init_burst].
  - cbn [List.length] in Hle. lia.
Qed.

Lemma while_true_count_init ticks s :
  ready s -> Forall one_high ticks ->
  count_init (out (while_true ticks s))
  = if initialized s then 0%nat
    else if is_nil (out (while_true ticks s)) then 0%nat else 1%nat.
Proof.
  revert s. induction ticks as [|t ticks IH]; intros s Hr Hall.
  - cbn. now destruct (initialized s).
  - inversion Hall as [|? ? H1 Hrest]; subst.
    rewrite (while_true_cons t ticks s Hr).
    pose proof (turn_count_init s t H1) as Ht.
    destruct (quits t); [exact Ht|].
    assert (Hi' : initialized (after_turn s t)
                  = initialized s || negb (is_nil (turn_out s t))).
    { unfold after_turn. cbn [initialized]. rewrite turn_out_nil.
      rewrite negb_andb, negb_involutive. now rewrite orb_assoc. }
    specialize (IH (after_turn s t) (ready_after_turn s t Hr) Hrest).
    destruct (while_true ticks (after_turn s t)) as [[r s2] o2].
    unfold out in *. cbn [snd] in *.
    rewrite count_init_app, Ht, IH, Hi', is_nil_app.
    destruct (initialized s), (is_nil (turn_out s t)), (is_nil o2); reflexivity.
Qed.

(** X14: if on every turn at most one pin is high, the initialization
    burst is sent once only: its one-shot frame of command 101 occurs
    exactly once in what a run has sent, and not at all while nothing has
    been sent; whatever is typed, whatever the platform. *)
Theorem one_button_at_a_time_initializes_once (pf : Platform) (ticks : list Tick) :
  Forall one_high ticks ->
  count_init (sent (main pf ticks))
  = if is_nil (sent (main pf ticks)) then 0%nat else 1%nat.
Proof.
  intros Hall. destruct (setup_ok_dec pf) as [Hok|Hno].
  - rewrite (sent_main_run pf ticks Hok).
    destruct (loop_entry_ready pf Hok) as (Hr & Hi & _).
    rewrite (while_true_count_init ticks (loop_entry pf) Hr Hall), Hi. reflexivity.
  - destruct (main_setup_failed pf ticks Hno) as (s1 & E & _).
    rewrite E. reflexivity.
Qed.

Lemma one_button_at_a_time_initializes_once_witness :
  Forall one_high [turn [16] ""; turn [16] "w"; turn [13] "a"; turn [] "0"] /\
  count_init (sent (main demo_platform
                      [turn [16] ""; turn [16] "w"; turn [13] "a"; turn [] "0"]))
  = if is_nil (sent (main demo_platform
                       [turn [16] ""; turn [16] "w"; turn [13] "a"; turn [] "0"]))
    then 0%nat else 1%nat.
Proof.
  assert (H : Forall one_high [turn [16] ""; turn [16] "w"; turn [13] "a"; turn [] "0"]).
  { repeat (apply Forall_cons; [unfold one_high; vm_compute; lia|]). apply Forall_nil. }
  split; [exact H|].
  exact (one_button_at_a_time_initializes_once demo_platform _ H).
Defined.

(** ** After the turn that initializes *)

Lemma while_true_ready ticks s : ready s -> ready (st (while_true ticks s)).
Proof.
  revert s. induction ticks as [|t ticks IH]; intros s Hr; [exact Hr|].
  rewrite (while_true_cons t ticks s Hr).
  destruct (quits t); [apply ready_after_turn; exact Hr|].
  specialize (IH (after_turn s t) (ready_after_turn s t Hr)).
  destruct (while_true ticks (after_turn s t)) as [[r s2] o2]. exact IH.
Qed.

Lemma while_true_app a b s :
  ready s ->
  while_true (a ++ b) s
  = match while_true a s with
    | (Ok false, s1, o1) =>
        let '(r, s2, o2) := while_true b s1 in (r, s2, o1 ++ o2)
    | x => x
    end.
Proof.
  revert s. induction a as [|t a IH]; intros s Hr.
  - cbn [app while_true ret]. destruct (while_true b s) as [[r s2] o2]. reflexivity.
  - cbn [app]. rewrite !(while_true_cons t _ s Hr).
    destruct (quits t); [reflexivity|].
    rewrite (IH (after_turn s t) (ready_after_turn s t Hr)).
    destruct (while_true a (after_turn s t)) as [[[[]|e] s1] o1]; try reflexivity.
    destruct (while_true b s1) as [[r s2] o2]. now rewrite app_assoc.
Qed.

Lemma turn_out_initialized s t :
  initialized s = true ->
  count_init (turn_out s t) = 0%nat /\ initialized (after_turn s t) = true.
Proof.
  intros Hi. unfold turn_out, after_turn. rewrite Hi. cbn [orb initialized].
  split; [|reflexivity].
  rewrite count_init_app.
  pose proof (accepted_in_pin_numbers s t) as Hin.
  assert (Hp : count_init
                 (List.concat
                    (map (fun pin => [] ++ pin_burst pin)
                       (accepted_pins (last_gpio_states s) (readings t)))) = 0%nat).
  { induction (accepted_pins (last_gpio_states s) (readings t)) as [|p acc IH];
      [reflexivity|].
    cbn [map List.concat app]. rewrite count_init_app.
    rewrite (count_init_pin_burst p (Hin p (or_introl eq_refl))).
    apply IH. intros k Hk. apply Hin. right. exact Hk. }
  rewrite Hp.
  destruct (typed_key t) eqn:Ek; [|reflexivity].
  apply (count_init_key_burst _ (typed_key_in_table t Ek)).
Qed.

Lemma while_true_initialized ticks s :
  ready s -> initialized s = true ->
  count_init (out (while_true ticks s)) = 0%nat.
Proof.
  revert s. induction ticks as [|t ticks IH]; intros s Hr Hi; [reflexivity|].
  rewrite (while_true_cons t ticks s Hr).
  destruct (turn_out_initialized s t Hi) as [Hc Hi'].
  destruct (quits t); [exact Hc|].
  specialize (IH (after_turn s t) (ready_after_turn s t Hr) Hi').
  destruct (while_true ticks (after_turn s t)) as [[r s2] o2].
  unfold out in *. cbn [snd] in *. rewrite count_init_app, Hc, IH. reflexivity.
Qed.

(** X15: once a run stands with the flag set, no turn that follows sends
    the initialization burst again: the longer run has sent what the
    shorter one had, then further datagrams among which the one-shot frame
    of command 101 does not occur, and its flag is still set. Only within
    the turn that sets the flag can the burst be repeated. *)
Theorem no_initialization_after_the_flag_is_set
    (pf : Platform) (ticks more : list Tick) :
  initialized (state_of (main pf ticks)) = true ->
  exists rest,
    sent (main pf (ticks ++ more)) = sent (main pf ticks) ++ rest /\
    count_init rest = 0%nat /\
    initialized (state_of (main pf (ticks ++ more))) = true.
Proof.
  intros Hi. destruct (setup_ok_dec pf) as [Hok|Hno].
  - destruct (loop_entry_ready pf Hok) as (Hr & _).
    revert Hi. rewrite !(main_run pf _ Hok), (while_true_app ticks more _ Hr).
    pose proof (while_true_res ticks (loop_entry pf) Hr) as Hres.
    pose proof (while_true_ready ticks (loop_entry pf) Hr) as Hr1.
    destruct (while_true ticks (loop_entry pf)) as [[r s1] o1].
    unfold res, st in Hres, Hr1. cbn [fst snd] in Hres, Hr1. subst r.
    destruct (existsb quits ticks).
    + intros Hi. exists []. rewrite app_nil_r. auto.
    + unfold state_of, sent. cbn [fst snd]. intros Hi.
      pose proof (while_true_initialized more s1 Hr1 Hi) as Hc.
      pose proof (while_true_res more s1 Hr1) as Hres2.
      assert (Hi2 : initialized (st (while_true more s1)) = true).
      { destruct (while_true_step more s1 Hr1) as (b & s2 & o2 & E & S).
        rewrite E. unfold st. cbn [fst snd]. apply (step_flag _ _ _ S Hi). }
      destruct (while_true more s1) as [[r2 s2] o2].
      unfold res, out, st in *. cbn [fst snd] in *. subst r2.
      exists o2. destruct (existsb quits more); cbn [fst snd].
      * split; [reflexivity|]. split; [exact Hc|].
        rewrite cleanup_run. exact Hi2.
      * auto.
  - destruct (GPIOReader_init_failure pf Hno) as (s1 & E & _ & _ & Hrest).
    assert (Em : main pf ticks = (Failed RuntimeError, s1, [])).
    { unfold main, with_GPIOReader. rewrite (bind_raise _ _ _ _ _ _ E). reflexivity. }
    rewrite Em in Hi. unfold state_of in Hi. cbn [fst snd] in Hi.
    injection Hrest as _ Hi' _ _. congruence.
Qed.

Lemma no_initialization_after_the_flag_is_set_witness :
  initialized (state_of (main demo_platform [turn [16; 13] ""])) = true /\
  exists rest,
    sent (main demo_platform ([turn [16; 13] ""] ++ [turn [] ""; turn [16; 13] "m"]))
      = sent (main demo_platform [turn [16; 13] ""]) ++ rest /\
    count_init rest = 0%nat /\
    initialized (state_of (main demo_platform
                             ([turn [16; 13] ""] ++ [turn [] ""; turn [16; 13] "m"]))) = true.
Proof.
  assert (H : initialized (state_of (main demo_platform [turn [16; 13] ""])) = true)
    by reflexivity.
  split; [exact H|].
  exact (no_initialization_after_the_flag_is_set demo_platform
           [turn [16; 13] ""] [turn [] ""; turn [16; 13] "m"] H).
Defined.
